(** * ts-service-worker: the strategy plan of [src/strategies.mts]

    A shallow embedding of the plan-handling functions of
    [strategies.mts] (type guards, plan normalisation, preload-path
    extraction, conversion to routable strategies), first over immutable
    values, then over an explicit store of JavaScript objects and arrays,
    and the properties the specification states about them. *)

From stdpp Require Import base option list sorting strings gmap.

Open Scope string_scope.

(** ** Data model *)

(** Modelled from the spec: the [FilesSpec] type is declared in
    [filesSpecToPaths.mts], which is not among the sources; its three
    fields are those the specification (section 6) and the README give:
    the root of the search, the glob, and the prefix put in front of every
    match. *)
Record FilesSpec : Type := mkFilesSpec {
  dir : string;
  glob : string;
  prefix : string
}.

(** [paths: string | Array<string>], the type of [CachePathOnInstall.paths].
    A routable strategy may also carry a [RegExp] or one of the two scope
    symbols ([InputPaths]); no function of [strategies.mts] looks inside a
    routable strategy's paths (they are copied, and tested for truthiness
    only), and a cache-on-install entry cannot carry them by its type, so
    the string forms are the ones represented. *)
Inductive Paths : Type :=
  | PathString (s : string)
  | PathArray (l : list string).

(** One entry of a plan: a JavaScript object with a [strategy] string and
    the optional properties the strategy types declare.  [None] is an
    absent property. *)
Record Entry : Type := mkEntry {
  strategy : string;
  files : option FilesSpec;
  paths : option Paths;
  backup : option string
}.

Abbreviation Plan := (list Entry).

(** An exception thrown by the glob resolver, with its message. *)
Inductive Result (A : Type) : Type :=
  | Ok (a : A)
  | Throw (message : string).
Arguments Ok {A} a.
Arguments Throw {A} message.

#[global] Instance Result_ret : MRet Result := λ A a, Ok a.

#[global] Instance Result_bind : MBind Result := λ A B k r,
  match r with
  | Ok a => k a
  | Throw m => Throw m
  end.

(** [Array.prototype.map] with a callback that may throw: the elements are
    visited in index order and the first exception ends the call. *)
Fixpoint mapR {A B} (f : A → Result B) (l : list A) : Result (list B) :=
  match l with
  | [] => Ok []
  | x :: l' => y ← f x; ys ← mapR f l'; Ok (y :: ys)
  end.

#[global] Instance FilesSpec_eq_dec : EqDecision FilesSpec.
Proof. solve_decision. Defined.
#[global] Instance Paths_eq_dec : EqDecision Paths.
Proof. solve_decision. Defined.
#[global] Instance Entry_eq_dec : EqDecision Entry.
Proof. solve_decision. Defined.

(** ** JavaScript primitives used by the module *)

(** [!!v] on a value of type [string | Array<string>]: the empty string is
    the one falsy value, every array (the empty one too) is truthy. *)
Definition truthyPaths (p : Paths) : bool :=
  match p with
  | PathString s => negb (String.eqb s "")
  | PathArray _ => true
  end.

(** [!!s.paths], [!!s.backup]: an absent property reads [undefined]. *)
Definition truthyPathsProp (p : option Paths) : bool :=
  match p with
  | Some v => truthyPaths v
  | None => false
  end.

Definition truthyStringProp (b : option string) : bool :=
  match b with
  | Some s => negb (String.eqb s "")
  | None => false
  end.

(** ['k' in s] *)
Definition hasProp {A} (p : option A) : bool :=
  match p with
  | Some _ => true
  | None => false
  end.

(** The order of the default comparator of [Array.prototype.sort] on
    strings: lexicographic on the code units.  A [string] here is a
    sequence of 8-bit characters, compared by their codes; on paths written
    with such characters this is the order of the UTF-16 code units. *)
Definition string_le (s1 s2 : string) : Prop := String.leb s1 s2 = true.

#[global] Instance string_le_dec : RelDecision string_le.
Proof. intros s1 s2; unfold string_le; apply _. Defined.

(** [Array.prototype.sort()] without a comparator, on an array of strings:
    a stable merge sort, as the engines implement it. *)
Definition Array_sort (l : list string) : list string :=
  merge_sort string_le l.

(** [Array.prototype.flat()] (depth 1) on an array whose elements are
    strings or arrays of strings: an array element is spliced in, any other
    element is kept as it is. *)
Definition flatOne (p : Paths) : list string :=
  match p with
  | PathString s => [s]
  | PathArray l => l
  end.

Definition Array_flat (xs : list Paths) : list string :=
  concat (map flatOne xs).

(** ** The type guards *)

Definition isCacheFileOnInstall (s : Entry) : bool :=
  String.eqb (strategy s) "cache-on-install" && hasProp (files s).

Definition isCachePathOnInstall (s : Entry) : bool :=
  String.eqb (strategy s) "cache-on-install" && hasProp (paths s).

Definition isStaticOfflineBackup (s : Entry) : bool :=
  String.eqb (strategy s) "staticOfflineBackup"
  && truthyPathsProp (paths s) && truthyStringProp (backup s).

Definition isRoutableStrategy (x : Entry) : bool :=
  String.eqb (strategy x) "cacheFirst"
  || String.eqb (strategy x) "networkFirst"
  || String.eqb (strategy x) "networkOnly"
  || String.eqb (strategy x) "staleWhileRevalidate"
  || String.eqb (strategy x) "staticOfflineBackup".

(** ** Preload-path extraction *)

(** [plan.filter(isCachePathOnInstall).map(s => s.paths).flat()], then the
    backups pushed at the end, then [sort()].  [omap] reads the property of
    each filtered entry; the filter has made sure it is there. *)
Definition extractAllPreloadPaths (plan : Plan) : list string :=
  let cacheOnInstallPaths :=
    Array_flat (omap paths (filter isCachePathOnInstall plan)) in
  let backupPaths :=
    omap backup (filter isStaticOfflineBackup plan) in
  Array_sort (cacheOnInstallPaths ++ backupPaths).

(** ** Conversion of install-time entries to cache-first strategies *)

Definition convertPreloadPathsToCacheFirst (spec : Plan) : Plan :=
  map (λ s,
         if isRoutableStrategy s then s
         else {| strategy := "cacheFirst"; files := None;
                 paths := paths s; backup := None |})
      spec.

(** ** Plan normalisation *)

Section Normalisation.

(** The glob resolver of [filesSpecToPaths.mts] (not among the sources):
    it scans the disk and returns the paths found, or throws. *)
Variable filesSpecToPaths : FilesSpec → Result (list string).

Definition convertPreloadFilesToPaths (f : FilesSpec) : Result Entry :=
  paths ← filesSpecToPaths f;
  Ok {| strategy := "cache-on-install"; files := None;
        paths := Some (PathArray paths); backup := None |}.

(** The guard narrows [strategy] to [CacheFileOnInstall]; its [files]
    property is then read. *)
Definition convertPreloadFiles (s : Entry) : Result Entry :=
  match isCacheFileOnInstall s, files s with
  | true, Some f => convertPreloadFilesToPaths f
  | _, _ => Ok s
  end.

Definition convertAllFilesToPaths (spec : Plan) : Result Plan :=
  mapR convertPreloadFiles spec.

(** The resolver answers (does not throw) for the files-spec of every
    entry of the plan that has one. *)
Definition resolvable (plan : Plan) : bool :=
  forallb (λ e, match files e with
                | Some f => match filesSpecToPaths f with
                            | Ok _ => true
                            | Throw _ => false
                            end
                | None => true
                end) plan.

End Normalisation.

(** The path-based entry that [convertPreloadFilesToPaths] builds from the
    resolver's output. *)
Definition pathEntry (ps : list string) : Entry :=
  {| strategy := "cache-on-install"; files := None;
     paths := Some (PathArray ps); backup := None |}.

(** A resolver over a fixed disk, for the examples: directory ["assets"]
    holds [logo.png] and [icon.png], directory ["empty"] holds nothing, and
    any other directory cannot be read. *)
Definition diskResolver (f : FilesSpec) : Result (list string) :=
  if String.eqb (dir f) "assets"
  then Ok [prefix f +:+ "/icon.png"; prefix f +:+ "/logo.png"]
  else if String.eqb (dir f) "empty" then Ok []
  else Throw ("ENOENT: no such file or directory, scandir " +:+ dir f).

(** ** The router of the generated worker *)

Section Router.

(** Whether the normalised paths of an entry match a request.  The Path
    Normalizer and its matchers (literal strings, patterns, the two scope
    symbols; spec, section 4.1) are part of the generated worker, which is
    not among the sources: the router takes the matcher as it comes. *)
Variable matches : Entry → string → bool.


End Router.


(** The cache-first strategy that [convertPreloadPathsToCacheFirst] builds
    from an entry that is not routable. *)
Definition cacheFirstOf (s : Entry) : Entry :=
  {| strategy := "cacheFirst"; files := None; paths := paths s;
     backup := None |}.

(** ** The same functions over a store of objects *)

(** JavaScript arrays and objects are references into a store, and
    [push] and [sort] update an array in place.  This second embedding keeps
    the store explicit: a function takes the store and gives back the store
    it leaves, so that what a call writes, and where, can be stated. *)
Module Store.

Abbreviation loc := positive.

Inductive value : Type :=
  | VUndefined
  | VString (s : string)
  | VRef (l : loc).

Inductive object : Type :=
  | OArray (elems : list value)
  | ORecord (props : gmap string value).

Abbreviation heap := (gmap loc object).

(** A call returns, throws, or is outside the typed fragment ([Stuck]:
    a value of the wrong type where the TypeScript types promise
    another). *)
Inductive outcome (A : Type) : Type :=
  | Returns (a : A) (h : heap)
  | Throws (message : string) (h : heap)
  | Stuck.
Arguments Returns {A} a h.
Arguments Throws {A} message h.
Arguments Stuck {A}.

Definition JS (A : Type) : Type := heap → outcome A.

#[global] Instance JS_ret : MRet JS := λ A a h, Returns a h.

#[global] Instance JS_bind : MBind JS := λ A B k m h,
  match m h with
  | Returns a h' => k a h'
  | Throws msg h' => Throws msg h'
  | Stuck => Stuck
  end.

Definition throw {A} (msg : string) : JS A := λ h, Throws msg h.

Definition stuck {A} : JS A := λ _, Stuck.

(** A new object, at a location the store does not use yet. *)
Definition alloc (o : object) : JS loc := λ h,
  let l := fresh (dom h) in Returns l (<[l:=o]> h).

Definition readArray (v : value) : JS (list value) := λ h,
  match v with
  | VRef l => match h !! l with
              | Some (OArray elems) => Returns elems h
              | _ => Stuck
              end
  | _ => Stuck
  end.

(** The elements of the array at [v] are replaced, in place. *)
Definition writeArray (v : value) (elems : list value) : JS unit := λ h,
  match v with
  | VRef l => match h !! l with
              | Some (OArray _) => Returns () (<[l:=OArray elems]> h)
              | _ => Stuck
              end
  | _ => Stuck
  end.

Definition readRecord (v : value) : JS (gmap string value) := λ h,
  match v with
  | VRef l => match h !! l with
              | Some (ORecord props) => Returns props h
              | _ => Stuck
              end
  | _ => Stuck
  end.

(** [s.k]: an absent property reads [undefined]. *)
Definition getProp (s : value) (k : string) : JS value :=
  props ← readRecord s; mret (default VUndefined (props !! k)).

(** ['k' in s] *)
Definition hasProp (k : string) (s : value) : JS bool :=
  props ← readRecord s; mret (bool_decide (is_Some (props !! k))).

(** [!!v] *)
Definition truthy (v : value) : bool :=
  match v with
  | VUndefined => false
  | VString s => negb (String.eqb s "")
  | VRef _ => true
  end.

(** [v === 'literal'] *)
Definition isString (v : value) (literal : string) : bool :=
  match v with
  | VString s => String.eqb s literal
  | _ => false
  end.

Fixpoint mapM {A B} (f : A → JS B) (l : list A) : JS (list B) :=
  match l with
  | [] => mret []
  | x :: l' => y ← f x; ys ← mapM f l'; mret (y :: ys)
  end.

Fixpoint filterM {A} (f : A → JS bool) (l : list A) : JS (list A) :=
  match l with
  | [] => mret []
  | x :: l' =>
      keep ← f x; ys ← filterM f l';
      mret (if keep : bool then x :: ys else ys)
  end.

(** [arr.filter(f)]: the callback is run on each element in turn and the
    elements kept go to a new array.  (The engine creates the new array
    before it runs the callbacks; no callback of this module can see it, so
    it is allocated here once its elements are known.  The same holds for
    [map] and [flat].) *)
Definition arrayFilter (f : value → JS bool) (arr : value) : JS value :=
  elems ← readArray arr; kept ← filterM f elems;
  l ← alloc (OArray kept); mret (VRef l).

(** [arr.map(f)]: a new array of the callback's results; an exception of
    the callback ends the call. *)
Definition arrayMap (f : value → JS value) (arr : value) : JS value :=
  elems ← readArray arr; results ← mapM f elems;
  l ← alloc (OArray results); mret (VRef l).

(** What one element gives to [flat()]: the elements of an array, or the
    element itself. *)
Definition flatElem (v : value) : JS (list value) := λ h,
  match v with
  | VRef l => match h !! l with
              | Some (OArray elems) => Returns elems h
              | _ => Returns [v] h
              end
  | _ => Returns [v] h
  end.

(** [arr.flat()]: a new array. *)
Definition arrayFlat (arr : value) : JS value :=
  elems ← readArray arr; parts ← mapM flatElem elems;
  l ← alloc (OArray (concat parts)); mret (VRef l).

(** [arr.push(...items)]: the items of the array [items] are appended to
    [arr], in place. *)
Definition arrayPush (arr items : value) : JS unit :=
  new ← readArray items; old ← readArray arr; writeArray arr (old ++ new).

Definition asString (v : value) : option string :=
  match v with
  | VString s => Some s
  | _ => None
  end.

Fixpoint asStrings (vs : list value) : option (list string) :=
  match vs with
  | [] => Some []
  | v :: vs' => s ← asString v; ss ← asStrings vs'; Some (s :: ss)
  end.

(** [arr.sort()] on an array of strings: sorted in place, and the same
    array is returned. *)
Definition arraySort (arr : value) : JS value :=
  elems ← readArray arr;
  match asStrings elems with
  | Some ss => _ ← writeArray arr (VString <$> Array_sort ss); mret arr
  | None => stuck
  end.

(** *** The type guards *)

Definition isCacheFileOnInstall (s : value) : JS bool :=
  st ← getProp s "strategy";
  if isString st "cache-on-install" then hasProp "files" s else mret false.

Definition isCachePathOnInstall (s : value) : JS bool :=
  st ← getProp s "strategy";
  if isString st "cache-on-install" then hasProp "paths" s else mret false.

Definition isStaticOfflineBackup (s : value) : JS bool :=
  st ← getProp s "strategy";
  if isString st "staticOfflineBackup" then
    p ← getProp s "paths";
    if truthy p then b ← getProp s "backup"; mret (truthy b)
    else mret false
  else mret false.

(** *** Preload-path extraction *)

Definition extractAllPreloadPaths (plan : value) : JS value :=
  filtered ← arrayFilter isCachePathOnInstall plan;
  mapped ← arrayMap (λ s, getProp s "paths") filtered;
  cacheOnInstallPaths ← arrayFlat mapped;
  accepted ← arrayFilter isStaticOfflineBackup plan;
  backupPaths ← arrayMap (λ s, getProp s "backup") accepted;
  _ ← arrayPush cacheOnInstallPaths backupPaths;
  arraySort cacheOnInstallPaths.

(** *** Plan normalisation *)

Section Normalisation.

Variable filesSpecToPaths : FilesSpec → Result (list string).

Definition readString (s : value) (k : string) : JS string :=
  v ← getProp s k;
  match v with
  | VString x => mret x
  | _ => stuck
  end.

(** The call of the resolver: it reads the files-spec object, and what it
    finds on the disk comes back in a new array; the store is otherwise
    left as it is (the resolver is a function of the files-spec). *)
Definition callFilesSpecToPaths (f : value) : JS value :=
  d ← readString f "dir"; g ← readString f "glob";
  p ← readString f "prefix";
  match filesSpecToPaths {| dir := d; glob := g; prefix := p |} with
  | Ok found => l ← alloc (OArray (VString <$> found)); mret (VRef l)
  | Throw msg => throw msg
  end.

Definition convertPreloadFilesToPaths (strategy : value) : JS value :=
  f ← getProp strategy "files";
  paths ← callFilesSpecToPaths f;
  l ← alloc (ORecord {[ "strategy" := VString "cache-on-install";
                        "paths" := paths ]});
  mret (VRef l).

Definition convertPreloadFiles (strategy : value) : JS value :=
  isFiles ← isCacheFileOnInstall strategy;
  if isFiles : bool then convertPreloadFilesToPaths strategy
  else mret strategy.

Definition convertAllFilesToPaths (spec : value) : JS value :=
  arrayMap convertPreloadFiles spec.

End Normalisation.

(** *** Conversion of install-time entries to cache-first strategies *)

(** The source reads [x.strategy] once for each comparison it makes; a
    read writes nothing, so it is read once here. *)
Definition isRoutableStrategy (x : value) : JS bool :=
  st ← getProp x "strategy";
  mret (isString st "cacheFirst"
        || isString st "networkFirst"
        || isString st "networkOnly"
        || isString st "staleWhileRevalidate"
        || isString st "staticOfflineBackup").

(** The callback of [convertPreloadPathsToCacheFirst]: a routable strategy
    is returned as it is (the same reference); otherwise a new object is
    made, whose [paths] is the value read from the entry. *)
Definition toCacheFirst (s : value) : JS value :=
  routable ← isRoutableStrategy s;
  if routable : bool then mret s
  else
    p ← getProp s "paths";
    l ← alloc (ORecord {[ "strategy" := VString "cacheFirst";
                          "paths" := p ]});
    mret (VRef l).

Definition convertPreloadPathsToCacheFirst (spec : value) : JS value :=
  arrayMap toCacheFirst spec.

End Store.

(** *** Stores that hold a plan *)

(** The value [v] of the store [h] is the paths value [p]: a string, or a
    reference to an array of strings. *)
Definition reprPaths (h : Store.heap) (v : Store.value) (p : Paths) : Prop :=
  match p with
  | PathString s => v = Store.VString s
  | PathArray l =>
      ∃ a, v = Store.VRef a
           ∧ h !! a = Some (Store.OArray (Store.VString <$> l))
  end.

Definition reprFilesSpec (h : Store.heap) (v : Store.value) (f : FilesSpec) : Prop :=
  ∃ a props,
    v = Store.VRef a ∧ h !! a = Some (Store.ORecord props)
    ∧ props !! "dir" = Some (Store.VString (dir f))
    ∧ props !! "glob" = Some (Store.VString (glob f))
    ∧ props !! "prefix" = Some (Store.VString (prefix f)).

(** The value [v] is a reference to an object with the properties of the
    entry [e], and no other of the four. *)
Definition reprEntry (h : Store.heap) (v : Store.value) (e : Entry) : Prop :=
  ∃ a props,
    v = Store.VRef a ∧ h !! a = Some (Store.ORecord props)
    ∧ props !! "strategy" = Some (Store.VString (strategy e))
    ∧ option_Forall2 (reprFilesSpec h) (props !! "files") (files e)
    ∧ option_Forall2 (reprPaths h) (props !! "paths") (paths e)
    ∧ option_Forall2 (λ b s, b = Store.VString s)
        (props !! "backup") (backup e).

(** The value [v] is a reference to an array whose elements are the entries
    of the plan, in order. *)
Definition reprPlan (h : Store.heap) (v : Store.value) (plan : Plan) : Prop :=
  ∃ a elems,
    v = Store.VRef a ∧ h !! a = Some (Store.OArray elems)
    ∧ Forall2 (reprEntry h) elems plan.

(** ** The preload set, entry by entry *)

(** What one entry adds to the preload paths, in the specification's words:
    a cache-on-install entry with paths adds every one of them, a
    static-offline-backup entry that the guard accepts adds its backup, any
    other entry adds nothing. *)
Definition entryPreloads (e : Entry) : list string :=
  if isCachePathOnInstall e then from_option flatOne [] (paths e)
  else if isStaticOfflineBackup e then option_list (backup e)
  else [].

(** *** What the converted arrays share with their input *)

(** The element [w] that normalisation returns for the element [v] of its
    input, which holds the entry [e]: a new object for a files entry (at a
    location that the store [h0] does not use), the reference [v] itself
    for any other entry. *)
Definition normalisedElement (h0 : Store.heap) (v : Store.value) (e : Entry)
    (w : Store.value) : Prop :=
  if isCacheFileOnInstall e then ∃ l, w = Store.VRef l ∧ h0 !! l = None
  else w = v.

(** The element [w] that the conversion to cache-first strategies returns
    for the element [v] of its input, which holds the entry [e]: the
    reference [v] itself for a routable entry; otherwise a new object of
    the store [h'] (at a location that the store [h0] does not use), with
    strategy cacheFirst, whose [paths] property is the very value that the
    input entry has for it. *)
Definition cacheFirstElement (h0 h' : Store.heap) (v : Store.value)
    (e : Entry) (w : Store.value) : Prop :=
  if isRoutableStrategy e then w = v
  else ∃ l props a props0,
      w = Store.VRef l ∧ h0 !! l = None
      ∧ h' !! l = Some (Store.ORecord props)
      ∧ v = Store.VRef a ∧ h' !! a = Some (Store.ORecord props0)
      ∧ props !! "strategy" = Some (Store.VString "cacheFirst")
      ∧ props !! "paths" = props0 !! "paths".

(** The entry that normalisation with the resolver [r] makes of [e], when
    the resolver answers. *)
Definition normalisedEntry (r : FilesSpec → Result (list string))
    (e : Entry) : Entry :=
  match convertPreloadFiles r e with
  | Ok o => o
  | Throw _ => e
  end.

(** ** One entry at a time *)

(** The callback of [convertPreloadPathsToCacheFirst]. *)
Definition toCacheFirst (s : Entry) : Entry :=
  if isRoutableStrategy s then s else cacheFirstOf s.

(** What one entry of the raw plan adds to the preload paths once the plan
    is normalised with the resolver [r]: the paths the resolver finds for a
    files entry, and what the entry adds as it stands otherwise. *)
Definition preloadsAfterNormalisation
    (r : FilesSpec → Result (list string)) (e : Entry) : list string :=
  match isCacheFileOnInstall e, files e with
  | true, Some f => match r f with
                    | Ok found => found
                    | Throw _ => []
                    end
  | _, _ => entryPreloads e
  end.

(** ** Entries used in the examples *)

Definition imagesEntry : Entry :=
  {| strategy := "cache-on-install";
     files := Some {| dir := "assets"; glob := "*.png"; prefix := "/img" |};
     paths := None; backup := None |}.

Definition bothFieldsEntry : Entry :=
  {| strategy := "cache-on-install";
     files := Some {| dir := "assets"; glob := "*.png"; prefix := "/img" |};
     paths := Some (PathArray ["/extra.css"]); backup := None |}.

Definition unreadableEntry : Entry :=
  {| strategy := "cache-on-install";
     files := Some {| dir := "nowhere"; glob := "*"; prefix := "" |};
     paths := None; backup := None |}.

Definition networkFirstEntry : Entry :=
  {| strategy := "networkFirst"; files := None;
     paths := Some (PathArray ["/src/site.css"]); backup := None |}.

Definition splashEntry : Entry :=
  {| strategy := "cache-on-install"; files := None;
     paths := Some (PathArray ["/images/splash.png"]); backup := None |}.

(** A store that holds a plan of three entries: the array at 1, the
    entries at 2, 4 and 6, the paths array of the first at 3 and the
    files-spec of the third at 7. *)
Definition planStore : Store.heap :=
  {[ 1%positive := Store.OArray [Store.VRef 2; Store.VRef 4; Store.VRef 6];
     2%positive := Store.ORecord
       {[ "strategy" := Store.VString "cache-on-install";
          "paths" := Store.VRef 3 ]};
     3%positive := Store.OArray
       [Store.VString "/z.png"; Store.VString "/a.png"];
     4%positive := Store.ORecord
       {[ "strategy" := Store.VString "staticOfflineBackup";
          "paths" := Store.VString "/";
          "backup" := Store.VString "/m.html" ]};
     6%positive := Store.ORecord
       {[ "strategy" := Store.VString "cache-on-install";
          "files" := Store.VRef 7 ]};
     7%positive := Store.ORecord
       {[ "dir" := Store.VString "assets";
          "glob" := Store.VString "*.png";
          "prefix" := Store.VString "/img" ]} ]}.

Definition storedPlan : Plan :=
  [ {| strategy := "cache-on-install"; files := None;
       paths := Some (PathArray ["/z.png"; "/a.png"]); backup := None |};
    {| strategy := "staticOfflineBackup"; files := None;
       paths := Some (PathString "/"); backup := Some "/m.html" |};
    imagesEntry ].

(** A store that holds a plan whose entries all have paths: the array at
    1, the entries at 2 and 4, the paths array of the first at 3. *)
Definition pathsStore : Store.heap :=
  {[ 1%positive := Store.OArray [Store.VRef 2; Store.VRef 4];
     2%positive := Store.ORecord
       {[ "strategy" := Store.VString "cache-on-install";
          "paths" := Store.VRef 3 ]};
     3%positive := Store.OArray
       [Store.VString "/z.png"; Store.VString "/a.png"];
     4%positive := Store.ORecord
       {[ "strategy" := Store.VString "staticOfflineBackup";
          "paths" := Store.VString "/";
          "backup" := Store.VString "/m.html" ]} ]}.

Definition pathsPlan : Plan :=
  [ {| strategy := "cache-on-install"; files := None;
       paths := Some (PathArray ["/z.png"; "/a.png"]); backup := None |};
    {| strategy := "staticOfflineBackup"; files := None;
       paths := Some (PathString "/"); backup := Some "/m.html" |} ].

(** ** The order of the default sort *)

Lemma string_compare_le_trans (s1 s2 s3 : string) :
  String.compare s1 s2 ≠ Gt → String.compare s2 s3 ≠ Gt →
  String.compare s1 s3 ≠ Gt.
Proof.
  revert s2 s3.
  induction s1 as [|a s1 IH]; intros [|b s2] [|c s3]; simpl; try congruence.
  unfold Ascii.compare.
  destruct (N.compare_spec (Ascii.N_of_ascii a) (Ascii.N_of_ascii b)),
    (N.compare_spec (Ascii.N_of_ascii b) (Ascii.N_of_ascii c)),
    (N.compare_spec (Ascii.N_of_ascii a) (Ascii.N_of_ascii c));
    try congruence; try lia; eauto.
Qed.

Lemma string_le_alt (s1 s2 : string) :
  string_le s1 s2 ↔ String.compare s1 s2 ≠ Gt.
Proof.
  unfold string_le, String.leb.
  destruct (String.compare s1 s2); split; congruence.
Qed.

#[global] Instance string_le_trans : Transitive string_le.
Proof.
  intros s1 s2 s3. rewrite !string_le_alt. apply string_compare_le_trans.
Qed.

#[global] Instance string_le_total : Total string_le.
Proof. intros s1 s2. apply String.leb_total. Qed.

#[global] Instance string_le_antisymm : AntiSymm (=) string_le.
Proof. intros s1 s2. apply String.leb_antisym. Qed.

Lemma Array_sort_Sorted (l : list string) : Sorted string_le (Array_sort l).
Proof. apply (Sorted_merge_sort string_le). Qed.

Lemma Array_sort_Permutation (l : list string) : Array_sort l ≡ₚ l.
Proof. apply merge_sort_Permutation. Qed.

(** Two arrays with the same elements sort to the same array. *)
Lemma Array_sort_perm_eq (l1 l2 : list string) :
  l1 ≡ₚ l2 → Array_sort l1 = Array_sort l2.
Proof.
  intros Hp. apply (Sorted_unique string_le); auto using Array_sort_Sorted.
  by rewrite !Array_sort_Permutation.
Qed.

(** ** Preload extraction *)

Lemma filter_bool_cons {A} (p : A → bool) (x : A) (l : list A) :
  filter p (x :: l) = if p x then x :: filter p l else filter p l.
Proof. cbn. by destruct (p x). Qed.

Lemma guards_exclusive (e : Entry) :
  isCachePathOnInstall e = true → isStaticOfflineBackup e = false.
Proof.
  unfold isCachePathOnInstall, isStaticOfflineBackup.
  intros [H _]%andb_prop. apply String.eqb_eq in H. rewrite H. reflexivity.
Qed.

Lemma extract_unsorted_perm (plan : Plan) :
  Array_flat (omap paths (filter isCachePathOnInstall plan))
    ++ omap backup (filter isStaticOfflineBackup plan)
  ≡ₚ concat (map entryPreloads plan).
Proof.
  induction plan as [|e plan IH]; [done|].
  rewrite !filter_bool_cons. cbn [map concat]. unfold entryPreloads at 1.
  destruct (isCachePathOnInstall e) eqn:Hc.
  - rewrite (guards_exclusive e Hc).
    unfold isCachePathOnInstall in Hc. apply andb_prop in Hc as [_ Hp].
    cbn [omap list_omap]. destruct (paths e) as [p|]; [|done].
    unfold Array_flat in *. cbn [map concat from_option].
    rewrite <- app_assoc. by rewrite IH.
  - destruct (isStaticOfflineBackup e) eqn:Hs; [|done].
    unfold isStaticOfflineBackup in Hs. apply andb_prop in Hs as [_ Hb].
    cbn [omap list_omap]. destruct (backup e) as [b|]; [|done].
    rewrite <- IH. simpl. symmetry. apply Permutation_middle.
Qed.

Lemma extract_perm (plan : Plan) :
  extractAllPreloadPaths plan ≡ₚ concat (map entryPreloads plan).
Proof.
  unfold extractAllPreloadPaths.
  rewrite Array_sort_Permutation. apply extract_unsorted_perm.
Qed.

(** C1, as the code has it: the output is sorted in the order of the default
    comparator and holds, with their multiplicities, the paths of every
    cache-on-install entry that has paths and the backup of every entry
    that [isStaticOfflineBackup] accepts.  Nothing removes duplicates. *)
Theorem extract_sorted_concatenation (plan : Plan) :
  Sorted string_le (extractAllPreloadPaths plan)
  ∧ extractAllPreloadPaths plan ≡ₚ concat (map entryPreloads plan).
Proof.
  split; [apply Array_sort_Sorted | apply extract_perm].
Qed.

(** C1, as stated, fails: a path listed twice by one cache-on-install entry
    comes out twice. *)
Lemma extract_keeps_duplicates :
  let plan := [ {| strategy := "cache-on-install"; files := None;
                   paths := Some (PathArray ["/a.png"; "/a.png"]);
                   backup := None |} ] in
  extractAllPreloadPaths plan = ["/a.png"; "/a.png"]
  ∧ ¬ NoDup (extractAllPreloadPaths plan).
Proof.
  split; [reflexivity|].
  intros Hnd. vm_compute in Hnd.
  apply NoDup_cons_1_1 in Hnd. apply Hnd. left.
Qed.

(** C3, as the code has it: the backup of a static-offline-backup entry is
    in the output when the entry's paths are truthy and its backup is a
    non-empty string. *)
Theorem extract_contains_guarded_backup (plan : Plan) (e : Entry) (b : string) :
  e ∈ plan →
  strategy e = "staticOfflineBackup" →
  truthyPathsProp (paths e) = true →
  backup e = Some b →
  b ≠ "" →
  b ∈ extractAllPreloadPaths plan.
Proof.
  intros He Hs Hp Hb Hne.
  rewrite extract_perm. apply list_elem_of_In, in_concat.
  exists (entryPreloads e). split.
  - apply in_map. by apply list_elem_of_In.
  - unfold entryPreloads, isCachePathOnInstall, isStaticOfflineBackup.
    rewrite Hs, Hp, Hb. simpl.
    apply String.eqb_neq in Hne. rewrite Hne. simpl. by left.
Qed.

Lemma extract_contains_guarded_backup_witness :
  "/offline.html" ∈ extractAllPreloadPaths
    [ {| strategy := "staticOfflineBackup"; files := None;
         paths := Some (PathArray ["/"; "/index.html"]);
         backup := Some "/offline.html" |} ].
Proof.
  eapply (extract_contains_guarded_backup _ _ "/offline.html");
    [apply list_elem_of_here | reflexivity | reflexivity | reflexivity | done].
Defined.

(** C3, as stated, fails: an entry whose strategy is staticOfflineBackup
    and whose paths is the empty string is not accepted by the guard, and
    its backup is not collected. *)
Lemma extract_skips_backup_of_falsy_paths :
  let e := {| strategy := "staticOfflineBackup"; files := None;
              paths := Some (PathString "");
              backup := Some "/offline.html" |} in
  strategy e = "staticOfflineBackup"
  ∧ backup e = Some "/offline.html"
  ∧ extractAllPreloadPaths [e] = []
  ∧ ¬ ("/offline.html" ∈ extractAllPreloadPaths [e]).
Proof.
  repeat split. vm_compute. apply not_elem_of_nil.
Qed.

(** C7: the extracted paths do not depend on the order of the plan's
    entries. *)
Theorem extract_order_independent (plan plan' : Plan) :
  plan ≡ₚ plan' →
  extractAllPreloadPaths plan = extractAllPreloadPaths plan'.
Proof.
  intros Hp.
  apply (Sorted_unique string_le); try apply Array_sort_Sorted.
  rewrite !extract_perm. by rewrite Hp.
Qed.

Lemma extract_order_independent_witness :
  let a := {| strategy := "cache-on-install"; files := None;
              paths := Some (PathArray ["/z.css"; "/b.png"]);
              backup := None |} in
  let b := {| strategy := "staticOfflineBackup"; files := None;
              paths := Some (PathString "/"); backup := Some "/m.html" |} in
  extractAllPreloadPaths [a; b] = extractAllPreloadPaths [b; a].
Proof.
  intros a b. apply (extract_order_independent [a; b] [b; a]).
  apply Permutation_swap.
Defined.

(** C9: a cache-on-install entry whose paths is one string adds exactly
    that string, once, to the output. *)
Theorem extract_single_string_path (pre post : Plan) (e : Entry) (p : string) :
  strategy e = "cache-on-install" →
  paths e = Some (PathString p) →
  extractAllPreloadPaths (pre ++ e :: post)
    ≡ₚ p :: extractAllPreloadPaths (pre ++ post).
Proof.
  intros Hs Hp. rewrite !extract_perm.
  rewrite !map_app, !concat_app. simpl.
  unfold entryPreloads at 2, isCachePathOnInstall.
  rewrite Hs, Hp. simpl. by rewrite Permutation_middle.
Qed.

Lemma extract_single_string_path_witness :
  extractAllPreloadPaths
    ([] ++ {| strategy := "cache-on-install"; files := None;
              paths := Some (PathString "/app.js"); backup := None |} :: [])
  ≡ₚ "/app.js" :: extractAllPreloadPaths ([] ++ []).
Proof.
  apply (extract_single_string_path [] [] _ "/app.js"); reflexivity.
Defined.

(** ** Plan normalisation *)

Lemma mapR_Ok {A B} (f : A → Result B) (l : list A) (out : list B) :
  mapR f l = Ok out ↔ Forall2 (λ x y, f x = Ok y) l out.
Proof.
  revert out. induction l as [|x l IH]; intros out; simpl.
  - split.
    + intros [= <-]. constructor.
    + by intros ->%Forall2_nil_inv_l.
  - destruct (f x) as [y|m] eqn:Hx; simpl.
    + destruct (mapR f l) as [ys|m] eqn:Hl; simpl.
      * split.
        -- intros [= <-]. constructor; [done|]. by apply IH.
        -- intros (y' & ys' & Hy & Hys & ->)%Forall2_cons_inv_l.
           apply IH in Hys. congruence.
      * split; [done|].
        intros (y' & ys' & Hy & Hys & ->)%Forall2_cons_inv_l.
        apply IH in Hys. congruence.
    + split; [done|].
      intros (y' & ys' & Hy & Hys & ->)%Forall2_cons_inv_l. congruence.
Qed.

Lemma mapR_total {A B} (f : A → Result B) (l : list A) :
  Forall (λ x, ∃ y, f x = Ok y) l → ∃ out, mapR f l = Ok out.
Proof.
  induction 1 as [|x l [y Hy] _ [ys Hys]]; simpl; [by eexists|].
  rewrite Hy, Hys. by eexists.
Qed.

Lemma mapR_Throw {A B} (f : A → Result B) (l : list A) (x : A) (m : string) :
  x ∈ l → f x = Throw m → ∃ m', mapR f l = Throw m'.
Proof.
  induction 1 as [x l|x z l Hin IH]; intros Hx; simpl.
  - rewrite Hx. by eexists.
  - destruct (f z) as [y|m0]; simpl; [|by eexists].
    destruct (IH Hx) as [m' ->]. by eexists.
Qed.

Section NormalisationProperties.

Variable filesSpecToPaths : FilesSpec → Result (list string).

Abbreviation convertPreloadFiles' := (convertPreloadFiles filesSpecToPaths).
Abbreviation convertAllFilesToPaths' := (convertAllFilesToPaths filesSpecToPaths).

Lemma convertPreloadFiles_files (s : Entry) (f : FilesSpec) :
  strategy s = "cache-on-install" → files s = Some f →
  convertPreloadFiles' s = ps ← filesSpecToPaths f; Ok (pathEntry ps).
Proof.
  intros Hs Hf. unfold convertPreloadFiles, isCacheFileOnInstall.
  rewrite Hs, Hf. reflexivity.
Qed.

Lemma convertPreloadFiles_other (s : Entry) :
  isCacheFileOnInstall s = false → convertPreloadFiles' s = Ok s.
Proof. intros Hs. unfold convertPreloadFiles. by rewrite Hs. Qed.

Lemma convertPreloadFiles_not_files (s o : Entry) :
  convertPreloadFiles' s = Ok o → isCacheFileOnInstall o = false.
Proof.
  unfold convertPreloadFiles.
  destruct (isCacheFileOnInstall s) eqn:Hs.
  - destruct (files s) as [f|] eqn:Hf.
    + unfold convertPreloadFilesToPaths.
      destruct (filesSpecToPaths f); simpl; [|done].
      intros [= <-]. reflexivity.
    + intros [= <-]. unfold isCacheFileOnInstall in *.
      rewrite Hf in *. by rewrite andb_false_r.
  - destruct (files s); by intros [= <-].
Qed.

Lemma resolvable_spec (plan : Plan) (e : Entry) (f : FilesSpec) :
  resolvable filesSpecToPaths plan = true →
  e ∈ plan → files e = Some f → ∃ ps, filesSpecToPaths f = Ok ps.
Proof.
  unfold resolvable. rewrite forallb_forall.
  intros Hall He%list_elem_of_In Hf. specialize (Hall e He).
  rewrite Hf in Hall. destruct (filesSpecToPaths f); [by eexists|done].
Qed.

Lemma convertAll_total (plan : Plan) :
  resolvable filesSpecToPaths plan = true →
  ∃ out, convertAllFilesToPaths' plan = Ok out.
Proof.
  intros Hr. apply mapR_total, Forall_forall. intros e He.
  unfold convertPreloadFiles.
  destruct (isCacheFileOnInstall e); [|by eexists].
  destruct (files e) as [f|] eqn:Hf; [|by eexists].
  destruct (resolvable_spec plan e f Hr He Hf) as [ps Hps].
  unfold convertPreloadFilesToPaths. rewrite Hps. by eexists.
Qed.

Lemma convertAll_lookup (plan out : Plan) (i : nat) (e : Entry) :
  convertAllFilesToPaths' plan = Ok out → plan !! i = Some e →
  ∃ o, out !! i = Some o ∧ convertPreloadFiles' e = Ok o.
Proof.
  intros Hout%mapR_Ok Hi.
  destruct (Forall2_lookup_l _ _ _ _ _ Hout Hi) as (o & Ho & Heo). eauto.
Qed.

(** C5: when the resolver answers for every files-spec of the plan,
    normalisation returns a plan of the same length in which each
    cache-on-install entry given by a files-spec has become the path
    entry of the resolver's output, and every other entry is the one of
    the input at the same index. *)
Theorem convertAll_replaces_files_entries (plan : Plan) :
  resolvable filesSpecToPaths plan = true →
  ∃ out,
    convertAllFilesToPaths' plan = Ok out
    ∧ length out = length plan
    ∧ (∀ i e f, plan !! i = Some e →
         strategy e = "cache-on-install" → files e = Some f →
         ∃ ps, filesSpecToPaths f = Ok ps ∧ out !! i = Some (pathEntry ps))
    ∧ (∀ i e, plan !! i = Some e →
         isCacheFileOnInstall e = false → out !! i = Some e).
Proof.
  intros Hr. destruct (convertAll_total plan Hr) as [out Hout].
  exists out. split; [done|]. split; [|split].
  - apply mapR_Ok, Forall2_length in Hout. done.
  - intros i e f Hi Hs Hf.
    destruct (convertAll_lookup _ _ _ _ Hout Hi) as (o & Ho & Heo).
    rewrite (convertPreloadFiles_files e f Hs Hf) in Heo.
    destruct (filesSpecToPaths f) as [ps|m]; simpl in Heo; [|done].
    exists ps. split; [done|]. congruence.
  - intros i e Hi Hn.
    destruct (convertAll_lookup _ _ _ _ Hout Hi) as (o & Ho & Heo).
    rewrite (convertPreloadFiles_other e Hn) in Heo. congruence.
Qed.

(** C4, as the code has it: an entry that sets both [files] and [paths]
    is taken for a files entry; when the resolver answers, normalisation
    returns, and the entry has become the path entry of the resolver's
    output (the paths it was given are dropped). *)
Theorem convertAll_accepts_files_and_paths
    (plan : Plan) (i : nat) (s : Entry) (f : FilesSpec) (p : Paths) :
  plan !! i = Some s →
  strategy s = "cache-on-install" → files s = Some f → paths s = Some p →
  resolvable filesSpecToPaths plan = true →
  ∃ out ps,
    convertAllFilesToPaths' plan = Ok out
    ∧ filesSpecToPaths f = Ok ps
    ∧ out !! i = Some (pathEntry ps).
Proof.
  intros Hi Hs Hf _ Hr. destruct (convertAll_total plan Hr) as [out Hout].
  destruct (convertAll_lookup _ _ _ _ Hout Hi) as (o & Ho & Heo).
  rewrite (convertPreloadFiles_files s f Hs Hf) in Heo.
  destruct (filesSpecToPaths f) as [ps|m]; simpl in Heo; [|done].
  exists out, ps. repeat split; congruence.
Qed.

(** C6: when the resolver throws on the files-spec of some
    cache-on-install entry of the plan, normalisation throws: it returns
    no plan, partial or not. *)
Theorem convertAll_throws_when_resolver_throws
    (plan : Plan) (e : Entry) (f : FilesSpec) (m : string) :
  e ∈ plan →
  strategy e = "cache-on-install" → files e = Some f →
  filesSpecToPaths f = Throw m →
  (∃ m', convertAllFilesToPaths' plan = Throw m')
  ∧ (∀ out, convertAllFilesToPaths' plan ≠ Ok out).
Proof.
  intros He Hs Hf Hm.
  assert (∃ m', convertAllFilesToPaths' plan = Throw m') as [m' Hm'].
  { apply (mapR_Throw _ _ e m); [done|].
    rewrite (convertPreloadFiles_files e f Hs Hf), Hm. reflexivity. }
  split; [by eexists|]. intros out. by rewrite Hm'.
Qed.

Lemma convertAll_fixpoint (out : Plan) :
  Forall (λ e, isCacheFileOnInstall e = false) out →
  convertAllFilesToPaths' out = Ok out.
Proof.
  intros Hall. apply mapR_Ok.
  induction Hall as [|e out He _ IH]; constructor; [|done].
  by apply convertPreloadFiles_other.
Qed.

(** C10: normalising twice is normalising once; every entry of a
    normalised plan fails [isCacheFileOnInstall], so the second pass
    returns the plan it is given. *)
Theorem convertAll_idempotent (plan : Plan) :
  (convertAllFilesToPaths' plan ≫= convertAllFilesToPaths')
    = convertAllFilesToPaths' plan
  ∧ (∀ out, convertAllFilesToPaths' plan = Ok out →
       Forall (λ e, isCacheFileOnInstall e = false) out
       ∧ convertAllFilesToPaths' out = Ok out).
Proof.
  assert (∀ out, convertAllFilesToPaths' plan = Ok out →
            Forall (λ e, isCacheFileOnInstall e = false) out) as Hnf.
  { intros out Hout%mapR_Ok.
    induction Hout as [|e o plan out Heo _ IH]; constructor; [|done].
    by eapply convertPreloadFiles_not_files. }
  split.
  - destruct (convertAllFilesToPaths' plan) as [out|m] eqn:Hout; [|done].
    simpl. apply convertAll_fixpoint, Hnf. reflexivity.
  - intros out Hout. split; [by apply Hnf|].
    by apply convertAll_fixpoint, Hnf.
Qed.

End NormalisationProperties.

(** The normalisation theorems at the fixed disk. *)

Lemma convertAll_replaces_files_entries_witness :
  ∃ out,
    convertAllFilesToPaths diskResolver [networkFirstEntry; imagesEntry] = Ok out
    ∧ length out = 2
    ∧ (∀ i e f, [networkFirstEntry; imagesEntry] !! i = Some e →
         strategy e = "cache-on-install" → files e = Some f →
         ∃ ps, diskResolver f = Ok ps ∧ out !! i = Some (pathEntry ps))
    ∧ (∀ i e, [networkFirstEntry; imagesEntry] !! i = Some e →
         isCacheFileOnInstall e = false → out !! i = Some e).
Proof.
  apply (convertAll_replaces_files_entries diskResolver
           [networkFirstEntry; imagesEntry]).
  reflexivity.
Defined.

Lemma convertAll_accepts_files_and_paths_witness :
  ∃ out ps,
    convertAllFilesToPaths diskResolver [bothFieldsEntry] = Ok out
    ∧ diskResolver {| dir := "assets"; glob := "*.png"; prefix := "/img" |}
      = Ok ps
    ∧ out !! 0 = Some (pathEntry ps).
Proof.
  apply (convertAll_accepts_files_and_paths diskResolver [bothFieldsEntry] 0
           bothFieldsEntry _ (PathArray ["/extra.css"]));
    reflexivity.
Defined.

(** C4, as stated, fails: the plan made of an entry with both [files] and
    [paths] normalises without an exception. *)
Lemma convertAll_no_error_on_files_and_paths :
  hasProp (files bothFieldsEntry) = true
  ∧ hasProp (paths bothFieldsEntry) = true
  ∧ convertAllFilesToPaths diskResolver [bothFieldsEntry]
    = Ok [pathEntry ["/img/icon.png"; "/img/logo.png"]]
  ∧ ¬ (∃ m, convertAllFilesToPaths diskResolver [bothFieldsEntry] = Throw m).
Proof.
  repeat split. intros [m Hm]. vm_compute in Hm. discriminate Hm.
Qed.

Lemma convertAll_throws_when_resolver_throws_witness :
  (∃ m', convertAllFilesToPaths diskResolver
           [imagesEntry; unreadableEntry; networkFirstEntry] = Throw m')
  ∧ (∀ out, convertAllFilesToPaths diskResolver
              [imagesEntry; unreadableEntry; networkFirstEntry] ≠ Ok out).
Proof.
  apply (convertAll_throws_when_resolver_throws diskResolver
           [imagesEntry; unreadableEntry; networkFirstEntry]
           unreadableEntry {| dir := "nowhere"; glob := "*"; prefix := "" |}
           "ENOENT: no such file or directory, scandir nowhere");
    [apply list_elem_of_further, list_elem_of_here | reflexivity ..].
Defined.

Lemma convertAll_idempotent_witness :
  Forall (λ e, isCacheFileOnInstall e = false)
    [networkFirstEntry; pathEntry ["/img/icon.png"; "/img/logo.png"]]
  ∧ convertAllFilesToPaths diskResolver
      [networkFirstEntry; pathEntry ["/img/icon.png"; "/img/logo.png"]]
    = Ok [networkFirstEntry; pathEntry ["/img/icon.png"; "/img/logo.png"]].
Proof.
  apply (proj2 (convertAll_idempotent diskResolver
                  [networkFirstEntry; imagesEntry])).
  reflexivity.
Defined.

(** ** Routing of install-time entries *)

Lemma cacheFirstOf_routable (s : Entry) : isRoutableStrategy (cacheFirstOf s) = true.
Proof. reflexivity. Qed.

Lemma cache_on_install_not_routable (e : Entry) :
  strategy e = "cache-on-install" → isRoutableStrategy e = false.
Proof. unfold isRoutableStrategy. by intros ->. Qed.

Section RouterProperties.

Variable matches : Entry → string → bool.



End RouterProperties.


(** ** The store: what a call reads and what it writes *)

Lemma run_bind {A B} (m : Store.JS A) (k : A → Store.JS B) (h : Store.heap) :
  (m ≫= k) h = match m h with
               | Store.Returns a h' => k a h'
               | Store.Throws msg h' => Store.Throws msg h'
               | Store.Stuck => Store.Stuck
               end.
Proof. reflexivity. Qed.

Lemma run_alloc (o : Store.object) (h : Store.heap) :
  Store.alloc o h = Store.Returns (fresh (dom h)) (<[fresh (dom h):=o]> h).
Proof. reflexivity. Qed.

Lemma fresh_unused (h : Store.heap) : h !! fresh (dom h) = None.
Proof. apply not_elem_of_dom, is_fresh. Qed.

Lemma alloc_extends (h : Store.heap) (o : Store.object) :
  h ⊆ <[fresh (dom h):=o]> h.
Proof. apply insert_subseteq, fresh_unused. Qed.

Lemma run_getProp (h : Store.heap) (a : Store.loc) props (k : string) :
  h !! a = Some (Store.ORecord props) →
  Store.getProp (Store.VRef a) k h
    = Store.Returns (default Store.VUndefined (props !! k)) h.
Proof. intros Ha. unfold Store.getProp. rewrite run_bind. cbn. by rewrite Ha. Qed.

Lemma run_hasProp (h : Store.heap) (a : Store.loc) props (k : string) :
  h !! a = Some (Store.ORecord props) →
  Store.hasProp k (Store.VRef a) h
    = Store.Returns (bool_decide (is_Some (props !! k))) h.
Proof. intros Ha. unfold Store.hasProp. rewrite run_bind. cbn. by rewrite Ha. Qed.

Lemma run_readArray (h : Store.heap) (a : Store.loc) elems :
  h !! a = Some (Store.OArray elems) →
  Store.readArray (Store.VRef a) h = Store.Returns elems h.
Proof. intros Ha. cbn. by rewrite Ha. Qed.

Lemma run_writeArray (h : Store.heap) (a : Store.loc) old new :
  h !! a = Some (Store.OArray old) →
  Store.writeArray (Store.VRef a) new h
    = Store.Returns () (<[a:=Store.OArray new]> h).
Proof. intros Ha. cbn. by rewrite Ha. Qed.

(** A larger store holds the same plan. *)
Lemma reprPaths_mono (h h' : Store.heap) v p :
  h ⊆ h' → reprPaths h v p → reprPaths h' v p.
Proof.
  intros Hsub. destruct p as [s|l]; simpl; [done|].
  intros (a & -> & Ha). exists a. split; [done|]. by eapply lookup_weaken.
Qed.

Lemma reprFilesSpec_mono (h h' : Store.heap) v f :
  h ⊆ h' → reprFilesSpec h v f → reprFilesSpec h' v f.
Proof.
  intros Hsub (a & props & -> & Ha & Hrest). exists a, props.
  split; [done|]. split; [by eapply lookup_weaken|done].
Qed.

Lemma reprEntry_mono (h h' : Store.heap) v e :
  h ⊆ h' → reprEntry h v e → reprEntry h' v e.
Proof.
  intros Hsub (a & props & -> & Ha & Hs & Hf & Hp & Hb). exists a, props.
  split; [done|]. split; [by eapply lookup_weaken|]. split; [done|].
  split; [|split; [|done]].
  - destruct Hf; constructor. by eapply reprFilesSpec_mono.
  - destruct Hp; constructor. by eapply reprPaths_mono.
Qed.

Lemma reprEntries_mono (h h' : Store.heap) vs es :
  h ⊆ h' → Forall2 (reprEntry h) vs es → Forall2 (reprEntry h') vs es.
Proof.
  intros Hsub Hall. eapply Forall2_impl; [done|].
  intros v e. by apply reprEntry_mono.
Qed.

Lemma reprPlan_mono (h h' : Store.heap) v plan :
  h ⊆ h' → reprPlan h v plan → reprPlan h' v plan.
Proof.
  intros Hsub (a & elems & -> & Ha & Hall). exists a, elems.
  split; [done|]. split; [by eapply lookup_weaken|by eapply reprEntries_mono].
Qed.

(** The guards over the store decide what the guards over values decide,
    and write nothing. *)
Lemma truthy_paths (h : Store.heap) ov (op : option Paths) :
  option_Forall2 (reprPaths h) ov op →
  Store.truthy (default Store.VUndefined ov) = truthyPathsProp op.
Proof.
  intros [v p Hvp|]; [|done]. destruct p as [s|l]; simpl in *.
  - by subst.
  - by destruct Hvp as (a & -> & _).
Qed.

Lemma has_prop_repr {A} (R : Store.value → A → Prop) ov (oa : option A) :
  option_Forall2 R ov oa → bool_decide (is_Some ov) = hasProp oa.
Proof.
  intros [v a _|].
  - by apply bool_decide_eq_true_2.
  - apply bool_decide_eq_false_2. by intros [? ?].
Qed.

Lemma run_isCacheFileOnInstall (h : Store.heap) v e :
  reprEntry h v e →
  Store.isCacheFileOnInstall v h = Store.Returns (isCacheFileOnInstall e) h.
Proof.
  intros (a & props & -> & Ha & Hs & Hf & Hp & Hb).
  unfold Store.isCacheFileOnInstall, isCacheFileOnInstall.
  rewrite run_bind, (run_getProp h a props) by done. rewrite Hs. simpl.
  destruct (String.eqb (strategy e) "cache-on-install"); [|done].
  rewrite (run_hasProp h a props) by done. by rewrite (has_prop_repr _ _ _ Hf).
Qed.

Lemma run_isCachePathOnInstall (h : Store.heap) v e :
  reprEntry h v e →
  Store.isCachePathOnInstall v h = Store.Returns (isCachePathOnInstall e) h.
Proof.
  intros (a & props & -> & Ha & Hs & Hf & Hp & Hb).
  unfold Store.isCachePathOnInstall, isCachePathOnInstall.
  rewrite run_bind, (run_getProp h a props) by done. rewrite Hs. simpl.
  destruct (String.eqb (strategy e) "cache-on-install"); [|done].
  rewrite (run_hasProp h a props) by done. by rewrite (has_prop_repr _ _ _ Hp).
Qed.

Lemma run_isStaticOfflineBackup (h : Store.heap) v e :
  reprEntry h v e →
  Store.isStaticOfflineBackup v h = Store.Returns (isStaticOfflineBackup e) h.
Proof.
  intros (a & props & -> & Ha & Hs & Hf & Hp & Hb).
  unfold Store.isStaticOfflineBackup, isStaticOfflineBackup.
  rewrite run_bind, (run_getProp h a props) by done. rewrite Hs. simpl.
  destruct (String.eqb (strategy e) "staticOfflineBackup"); [|done].
  rewrite run_bind, (run_getProp h a props) by done.
  rewrite (truthy_paths h _ _ Hp). simpl.
  destruct (truthyPathsProp (paths e)); [|done].
  rewrite run_bind, (run_getProp h a props) by done.
  destruct Hb as [b s ->|]; reflexivity.
Qed.

Lemma run_filterM (h : Store.heap) (f : Store.value → Store.JS bool)
    (g : Entry → bool) vs (es : list Entry) :
  (∀ v e, reprEntry h v e → f v h = Store.Returns (g e) h) →
  Forall2 (reprEntry h) vs es →
  ∃ kept, Store.filterM f vs h = Store.Returns kept h
          ∧ Forall2 (reprEntry h) kept (filter g es).
Proof.
  intros Hf. induction 1 as [|v e vs es Hve _ (kept & Hrun & Hkept)].
  - exists []. split; [done|constructor].
  - cbn [Store.filterM]. rewrite run_bind, (Hf v e Hve).
    rewrite run_bind, Hrun. rewrite filter_bool_cons.
    destruct (g e); eexists; split; try reflexivity; by try constructor.
Qed.

Lemma filter_bool_Forall {A} (g : A → bool) (l : list A) :
  Forall (λ x, g x = true) (filter g l).
Proof.
  induction l as [|x l IH]; [constructor|].
  rewrite filter_bool_cons. destruct (g x) eqn:Hx; [by constructor|done].
Qed.

(** [.map(s => s.paths)] over entries that all have paths. *)
Lemma run_map_paths (h : Store.heap) vs (es : list Entry) :
  Forall2 (reprEntry h) vs es →
  Forall (λ e, isCachePathOnInstall e = true) es →
  ∃ ps, Store.mapM (λ s, Store.getProp s "paths") vs h = Store.Returns ps h
        ∧ Forall2 (reprPaths h) ps (omap paths es).
Proof.
  induction 1 as [|v e vs es Hve _ IH]; intros Hall.
  - exists []. split; [done|constructor].
  - apply Forall_cons in Hall as [He Hall].
    destruct (IH Hall) as (ps & Hrun & Hps).
    destruct Hve as (a & props & -> & Ha & Hs & Hf & Hp & Hb).
    cbn [Store.mapM]. rewrite run_bind, (run_getProp h a props) by done.
    rewrite run_bind, Hrun.
    unfold isCachePathOnInstall in He. apply andb_prop in He as [_ He].
    cbn [omap list_omap].
    destruct Hp as [pv p Hpv|]; [|done]. simpl.
    eexists. split; [reflexivity|]. by constructor.
Qed.

(** [.map(s => s.backup)] over entries that the guard accepts. *)
Lemma run_map_backup (h : Store.heap) vs (es : list Entry) :
  Forall2 (reprEntry h) vs es →
  Forall (λ e, isStaticOfflineBackup e = true) es →
  Store.mapM (λ s, Store.getProp s "backup") vs h
    = Store.Returns (Store.VString <$> omap backup es) h.
Proof.
  induction 1 as [|v e vs es Hve _ IH]; intros Hall; [done|].
  apply Forall_cons in Hall as [He Hall].
  destruct Hve as (a & props & -> & Ha & Hs & Hf & Hp & Hb).
  cbn [Store.mapM]. rewrite run_bind, (run_getProp h a props) by done.
  rewrite run_bind, (IH Hall).
  unfold isStaticOfflineBackup in He. apply andb_prop in He as [_ He].
  cbn [omap list_omap].
  destruct Hb as [bv b ->|]; [|done]. reflexivity.
Qed.

Lemma run_flatElem (h : Store.heap) v p :
  reprPaths h v p →
  Store.flatElem v h = Store.Returns (Store.VString <$> flatOne p) h.
Proof.
  destruct p as [s|l]; simpl.
  - by intros ->.
  - intros (a & -> & Ha). cbn. by rewrite Ha.
Qed.

Lemma run_flat_parts (h : Store.heap) vs (ps : list Paths) :
  Forall2 (reprPaths h) vs ps →
  ∃ parts, Store.mapM Store.flatElem vs h = Store.Returns parts h
           ∧ concat parts = Store.VString <$> Array_flat ps.
Proof.
  induction 1 as [|v p vs ps Hvp _ (parts & Hrun & Hparts)].
  - exists []. by split.
  - cbn [Store.mapM]. rewrite run_bind, (run_flatElem h v p Hvp).
    rewrite run_bind, Hrun. eexists. split; [reflexivity|].
    unfold Array_flat in *. cbn [map concat]. rewrite Hparts.
    by rewrite fmap_app.
Qed.

Lemma asStrings_strings (l : list string) :
  Store.asStrings (Store.VString <$> l) = Some l.
Proof. induction l as [|s l IH]; [done|]. cbn. rewrite IH. reflexivity. Qed.

(** The array methods that build a new array. *)
Lemma run_arrayFilter (h : Store.heap) f (a : Store.loc) elems kept :
  h !! a = Some (Store.OArray elems) →
  Store.filterM f elems h = Store.Returns kept h →
  Store.arrayFilter f (Store.VRef a) h
    = Store.Returns (Store.VRef (fresh (dom h)))
        (<[fresh (dom h):=Store.OArray kept]> h).
Proof.
  intros Ha Hrun. unfold Store.arrayFilter.
  rewrite run_bind, (run_readArray h a elems Ha).
  rewrite run_bind, Hrun. reflexivity.
Qed.

Lemma run_arrayMap (h : Store.heap) f (a : Store.loc) elems results :
  h !! a = Some (Store.OArray elems) →
  Store.mapM f elems h = Store.Returns results h →
  Store.arrayMap f (Store.VRef a) h
    = Store.Returns (Store.VRef (fresh (dom h)))
        (<[fresh (dom h):=Store.OArray results]> h).
Proof.
  intros Ha Hrun. unfold Store.arrayMap.
  rewrite run_bind, (run_readArray h a elems Ha).
  rewrite run_bind, Hrun. reflexivity.
Qed.

Lemma run_arrayFlat (h : Store.heap) (a : Store.loc) elems parts :
  h !! a = Some (Store.OArray elems) →
  Store.mapM Store.flatElem elems h = Store.Returns parts h →
  Store.arrayFlat (Store.VRef a) h
    = Store.Returns (Store.VRef (fresh (dom h)))
        (<[fresh (dom h):=Store.OArray (concat parts)]> h).
Proof.
  intros Ha Hrun. unfold Store.arrayFlat.
  rewrite run_bind, (run_readArray h a elems Ha).
  rewrite run_bind, Hrun. reflexivity.
Qed.

(** The two array methods that write in place. *)
Lemma run_arrayPush (h : Store.heap) (a b : Store.loc) old new :
  h !! a = Some (Store.OArray old) →
  h !! b = Some (Store.OArray new) →
  Store.arrayPush (Store.VRef a) (Store.VRef b) h
    = Store.Returns () (<[a:=Store.OArray (old ++ new)]> h).
Proof.
  intros Ha Hb. unfold Store.arrayPush.
  rewrite run_bind, (run_readArray h b new Hb).
  rewrite run_bind, (run_readArray h a old Ha).
  by apply run_writeArray with old.
Qed.

Lemma run_arraySort (h : Store.heap) (a : Store.loc) (l : list string) :
  h !! a = Some (Store.OArray (Store.VString <$> l)) →
  Store.arraySort (Store.VRef a) h
    = Store.Returns (Store.VRef a)
        (<[a:=Store.OArray (Store.VString <$> Array_sort l)]> h).
Proof.
  intros Ha. unfold Store.arraySort.
  rewrite run_bind, (run_readArray h a _ Ha). rewrite asStrings_strings.
  rewrite run_bind, (run_writeArray h a _ _ Ha). reflexivity.
Qed.

(** Extraction over the store: the result is a new array, which holds the
    paths that extraction over values computes, and every object of the
    store the call started from is still there, as it was. *)
Lemma run_extractAllPreloadPaths (h : Store.heap) v (plan : Plan) :
  reprPlan h v plan →
  ∃ r h',
    Store.extractAllPreloadPaths v h = Store.Returns (Store.VRef r) h'
    ∧ h ⊆ h'
    ∧ h !! r = None
    ∧ h' !! r
      = Some (Store.OArray (Store.VString <$> extractAllPreloadPaths plan)).
Proof.
  intros (a & elems & -> & Ha & Hplan). unfold Store.extractAllPreloadPaths.
  (* plan.filter(isCachePathOnInstall) *)
  destruct (run_filterM h _ _ elems plan (run_isCachePathOnInstall h) Hplan)
    as (kept & Hkept & Hk).
  rewrite run_bind, (run_arrayFilter h _ a elems kept Ha Hkept).
  set (r1 := fresh (dom h)). set (h1 := <[r1:=_]> h).
  assert (h ⊆ h1) as H01 by apply alloc_extends.
  (* .map(s => s.paths) *)
  destruct (run_map_paths h1 kept _ (reprEntries_mono _ _ _ _ H01 Hk)
              (filter_bool_Forall _ _)) as (ps & Hps & Hp).
  rewrite run_bind, (run_arrayMap h1 _ r1 kept ps (lookup_insert_eq _ _ _) Hps).
  set (r2 := fresh (dom h1)). set (h2 := <[r2:=_]> h1).
  assert (h1 ⊆ h2) as H12 by apply alloc_extends.
  (* .flat() *)
  destruct (run_flat_parts h2 ps _
              (Forall2_impl _ _ _ _ Hp (λ v p, reprPaths_mono _ _ v p H12)))
    as (parts & Hparts & Hconcat).
  rewrite run_bind,
    (run_arrayFlat h2 r2 ps parts (lookup_insert_eq _ _ _) Hparts).
  rewrite Hconcat.
  set (r3 := fresh (dom h2)). set (h3 := <[r3:=_]> h2).
  assert (h2 ⊆ h3) as H23 by apply alloc_extends.
  assert (h ⊆ h3) as H03 by (by repeat (etrans; [eassumption|])).
  (* plan.filter(isStaticOfflineBackup) *)
  destruct (run_filterM h3 _ _ elems plan (run_isStaticOfflineBackup h3)
              (reprEntries_mono _ _ _ _ H03 Hplan)) as (kept' & Hkept' & Hk').
  rewrite run_bind,
    (run_arrayFilter h3 _ a elems kept' (lookup_weaken _ _ _ _ Ha H03) Hkept').
  set (r4 := fresh (dom h3)). set (h4 := <[r4:=_]> h3).
  assert (h3 ⊆ h4) as H34 by apply alloc_extends.
  (* .map(s => s.backup) *)
  pose proof (run_map_backup h4 kept' _ (reprEntries_mono _ _ _ _ H34 Hk')
                (filter_bool_Forall _ _)) as Hbs.
  rewrite run_bind, (run_arrayMap h4 _ r4 kept' _ (lookup_insert_eq _ _ _) Hbs).
  set (r5 := fresh (dom h4)). set (h5 := <[r5:=_]> h4).
  assert (h4 ⊆ h5) as H45 by apply alloc_extends.
  (* cacheOnInstallPaths.push(...backupPaths) *)
  assert (h5 !! r3 = Some (Store.OArray (Store.VString <$>
            Array_flat (omap paths (filter isCachePathOnInstall plan)))))
    as Hr3.
  { eapply lookup_weaken; [|exact H45]. eapply lookup_weaken; [|exact H34].
    apply lookup_insert_eq. }
  rewrite run_bind,
    (run_arrayPush h5 r3 r5 _ _ Hr3 (lookup_insert_eq _ _ _)).
  rewrite <- fmap_app.
  (* .sort() *)
  rewrite (run_arraySort _ r3 _ (lookup_insert_eq _ _ _)).
  rewrite insert_insert_eq.
  assert (h !! r3 = None) as Hfresh.
  { eapply lookup_weaken_None; [apply (fresh_unused h2)|].
    by etrans; [exact H01|]. }
  eexists r3, _. split; [reflexivity|]. split; [|split; [done|]].
  - apply insert_subseteq_r; [done|].
    by repeat (etrans; [eassumption|]).
  - by rewrite lookup_insert_eq.
Qed.

Section StoreNormalisation.

Variable filesSpecToPaths : FilesSpec → Result (list string).

Lemma run_readString (h : Store.heap) (a : Store.loc) props k (s : string) :
  h !! a = Some (Store.ORecord props) →
  props !! k = Some (Store.VString s) →
  Store.readString (Store.VRef a) k h = Store.Returns s h.
Proof.
  intros Ha Hk. unfold Store.readString.
  rewrite run_bind, (run_getProp h a props) by done. by rewrite Hk.
Qed.

(** The call of the resolver on the files-spec object of the store. *)
Lemma run_callFilesSpecToPaths (h : Store.heap) v (f : FilesSpec) :
  reprFilesSpec h v f →
  Store.callFilesSpecToPaths filesSpecToPaths v h
  = match filesSpecToPaths f with
    | Ok found =>
        Store.Returns (Store.VRef (fresh (dom h)))
          (<[fresh (dom h):=Store.OArray (Store.VString <$> found)]> h)
    | Throw msg => Store.Throws msg h
    end.
Proof.
  intros (a & props & -> & Ha & Hd & Hg & Hp).
  unfold Store.callFilesSpecToPaths.
  rewrite run_bind, (run_readString h a props _ _ Ha Hd).
  rewrite run_bind, (run_readString h a props _ _ Ha Hg).
  rewrite run_bind, (run_readString h a props _ _ Ha Hp).
  destruct f as [d g p]. simpl. by destruct (filesSpecToPaths _).
Qed.

(** One entry: the call throws what the resolver throws, before it has
    written anything; otherwise the store it leaves extends the one it
    started from and holds the converted entry.  An entry that is not a
    files entry comes back as the same reference. *)
Lemma run_convertPreloadFiles (h : Store.heap) v (e : Entry) :
  reprEntry h v e →
  match convertPreloadFiles filesSpecToPaths e with
  | Ok o =>
      ∃ w h', Store.convertPreloadFiles filesSpecToPaths v h
                = Store.Returns w h'
              ∧ h ⊆ h' ∧ reprEntry h' w o
  | Throw msg =>
      Store.convertPreloadFiles filesSpecToPaths v h = Store.Throws msg h
  end.
Proof.
  intros Hve. pose proof (run_isCacheFileOnInstall h v e Hve) as Hguard.
  unfold Store.convertPreloadFiles, convertPreloadFiles.
  rewrite run_bind, Hguard.
  destruct (isCacheFileOnInstall e) eqn:Hfiles.
  - destruct Hve as (a & props & -> & Ha & Hs & Hf & Hp & Hb).
    unfold isCacheFileOnInstall in Hfiles.
    apply andb_prop in Hfiles as [_ Hfiles].
    inversion Hf as [fv f Hfv Hfv' Hf'|Hfv' Hf'];
      [|by rewrite <- Hf' in Hfiles].
    unfold Store.convertPreloadFilesToPaths, convertPreloadFilesToPaths.
    rewrite run_bind, (run_getProp h a props) by done.
    rewrite <- Hfv'. simpl.
    rewrite run_bind, (run_callFilesSpecToPaths h fv f Hfv).
    destruct (filesSpecToPaths f) as [found|msg]; simpl; [|done].
    set (r1 := fresh (dom h)). set (h1 := <[r1:=_]> h).
    set (r2 := fresh (dom h1)).
    eexists (Store.VRef r2), (<[r2:=_]> h1). split; [reflexivity|].
    assert (h ⊆ h1) as H01 by apply alloc_extends.
    assert (h1 ⊆ <[r2:=Store.ORecord
                         {[ "strategy" := Store.VString "cache-on-install";
                            "paths" := Store.VRef r1 ]}]> h1)
      as H12 by apply alloc_extends.
    split; [by etrans|].
    eexists r2, _. split; [done|]. split; [apply lookup_insert_eq|].
    split; [done|]. split; [constructor|]. split; [|constructor].
    constructor. exists r1. split; [done|].
    eapply lookup_weaken; [apply lookup_insert_eq|exact H12].
  - destruct (files e); exists v, h; by repeat split.
Qed.

Lemma run_mapM_convertPreloadFiles (h : Store.heap) vs (plan : Plan) :
  Forall2 (reprEntry h) vs plan →
  match convertAllFilesToPaths filesSpecToPaths plan with
  | Ok out =>
      ∃ ws h', Store.mapM (Store.convertPreloadFiles filesSpecToPaths) vs h
                 = Store.Returns ws h'
               ∧ h ⊆ h' ∧ Forall2 (reprEntry h') ws out
  | Throw msg =>
      ∃ h', Store.mapM (Store.convertPreloadFiles filesSpecToPaths) vs h
              = Store.Throws msg h'
            ∧ h ⊆ h'
  end.
Proof.
  intros Hall. revert h vs Hall. unfold convertAllFilesToPaths.
  induction plan as [|e plan IH]; intros h vs Hall.
  - apply Forall2_nil_inv_r in Hall as ->. exists [], h. by repeat split.
  - apply Forall2_cons_inv_r in Hall as (v & vs' & Hve & Hall & ->).
    cbn [mapR Store.mapM]. rewrite run_bind.
    pose proof (run_convertPreloadFiles h v e Hve) as Hone.
    destruct (convertPreloadFiles filesSpecToPaths e) as [o|msg]; simpl.
    + destruct Hone as (w & h1 & -> & H01 & Hwo).
      specialize (IH h1 vs' (reprEntries_mono _ _ _ _ H01 Hall)).
      rewrite run_bind.
      destruct (mapR (convertPreloadFiles filesSpecToPaths) plan)
        as [out|msg]; simpl.
      * destruct IH as (ws & h2 & -> & H12 & Hws).
        exists (w :: ws), h2. split; [done|]. split; [by etrans|].
        constructor; [by eapply reprEntry_mono|done].
      * destruct IH as (h2 & -> & H12). exists h2. split; [done|by etrans].
    + rewrite Hone. by exists h.
Qed.

(** Normalisation over the store: it throws what normalisation over values
    throws, or returns a new array that holds the normalised plan; either
    way every object of the store the call started from is still there, as
    it was. *)
Lemma run_convertAllFilesToPaths (h : Store.heap) v (plan : Plan) :
  reprPlan h v plan →
  match convertAllFilesToPaths filesSpecToPaths plan with
  | Ok out =>
      ∃ r h', Store.convertAllFilesToPaths filesSpecToPaths v h
                = Store.Returns (Store.VRef r) h'
              ∧ h ⊆ h' ∧ h !! r = None ∧ reprPlan h' (Store.VRef r) out
  | Throw msg =>
      ∃ h', Store.convertAllFilesToPaths filesSpecToPaths v h
              = Store.Throws msg h'
            ∧ h ⊆ h'
  end.
Proof.
  intros (a & elems & -> & Ha & Hplan).
  pose proof (run_mapM_convertPreloadFiles h elems plan Hplan) as Hmap.
  unfold Store.convertAllFilesToPaths, Store.arrayMap.
  rewrite run_bind, (run_readArray h a elems Ha), run_bind.
  destruct (convertAllFilesToPaths filesSpecToPaths plan) as [out|msg].
  - destruct Hmap as (ws & h1 & -> & H01 & Hws).
    rewrite run_bind, run_alloc. cbn.
    set (r := fresh (dom h1)).
    assert (h1 ⊆ <[r:=Store.OArray ws]> h1) as H1r by apply alloc_extends.
    exists r, (<[r:=Store.OArray ws]> h1). split; [done|].
    split; [by etrans|]. split.
    + eapply lookup_weaken_None; [apply fresh_unused|done].
    + exists r, ws. split; [done|]. split; [apply lookup_insert_eq|].
      by eapply reprEntries_mono.
  - destruct Hmap as (h1 & -> & H01). by exists h1.
Qed.

(** C8: on a store that holds the plan, extraction returns a new array
    with the extracted paths, and normalisation returns a new array with
    the normalised plan, or throws; the store each call leaves extends the
    store it started from ([h ⊆ h']: every object that was there is there,
    with the same elements and the same properties), so that the input
    array still holds the same plan. *)
Theorem calls_leave_input_unchanged (h : Store.heap) v (plan : Plan) :
  reprPlan h v plan →
  (∃ r h',
      Store.extractAllPreloadPaths v h = Store.Returns (Store.VRef r) h'
      ∧ h ⊆ h' ∧ reprPlan h' v plan
      ∧ h !! r = None
      ∧ h' !! r
        = Some (Store.OArray (Store.VString <$> extractAllPreloadPaths plan)))
  ∧ match convertAllFilesToPaths filesSpecToPaths plan with
    | Ok out =>
        ∃ r h', Store.convertAllFilesToPaths filesSpecToPaths v h
                  = Store.Returns (Store.VRef r) h'
                ∧ h ⊆ h' ∧ reprPlan h' v plan
                ∧ h !! r = None ∧ reprPlan h' (Store.VRef r) out
    | Throw msg =>
        ∃ h', Store.convertAllFilesToPaths filesSpecToPaths v h
                = Store.Throws msg h'
              ∧ h ⊆ h' ∧ reprPlan h' v plan
    end.
Proof.
  intros Hplan. split.
  - destruct (run_extractAllPreloadPaths h v plan Hplan)
      as (r & h' & Hrun & Hsub & Hfresh & Hr).
    exists r, h'. repeat split; try done. by eapply reprPlan_mono.
  - pose proof (run_convertAllFilesToPaths h v plan Hplan) as Hrun.
    destruct (convertAllFilesToPaths filesSpecToPaths plan) as [out|msg].
    + destruct Hrun as (r & h' & Hrun & Hsub & Hfresh & Hout).
      exists r, h'. repeat split; try done. by eapply reprPlan_mono.
    + destruct Hrun as (h' & Hrun & Hsub).
      exists h'. repeat split; try done. by eapply reprPlan_mono.
Qed.

End StoreNormalisation.

Lemma planStore_holds_storedPlan : reprPlan planStore (Store.VRef 1) storedPlan.
Proof.
  exists 1%positive, [Store.VRef 2; Store.VRef 4; Store.VRef 6].
  split; [reflexivity|]. split; [reflexivity|].
  unfold storedPlan, imagesEntry.
  constructor; [|constructor; [|constructor; [|constructor]]].
  - eexists 2%positive, _. split; [reflexivity|].
    split; [vm_compute; reflexivity|]. split; [reflexivity|].
    split; [constructor|]. split; [|constructor].
    constructor. exists 3%positive. split; reflexivity.
  - eexists 4%positive, _. split; [reflexivity|].
    split; [vm_compute; reflexivity|]. split; [reflexivity|].
    split; [constructor|]. split; constructor; reflexivity.
  - eexists 6%positive, _. split; [reflexivity|].
    split; [vm_compute; reflexivity|]. split; [reflexivity|].
    split; [|split; constructor].
    constructor. eexists 7%positive, _. repeat split; reflexivity.
Qed.

(** [sort()] does write in place: sorting the paths array of the first
    entry itself would change the plan. *)
Lemma arraySort_writes_in_place :
  ∃ h', Store.arraySort (Store.VRef 3) planStore
          = Store.Returns (Store.VRef 3) h'
        ∧ planStore !! 3%positive
          = Some (Store.OArray [Store.VString "/z.png"; Store.VString "/a.png"])
        ∧ h' !! 3%positive
          = Some (Store.OArray [Store.VString "/a.png"; Store.VString "/z.png"]).
Proof.
  eexists. split; [|split].
  - apply (run_arraySort planStore 3 ["/z.png"; "/a.png"]). reflexivity.
  - reflexivity.
  - by rewrite lookup_insert_eq.
Qed.

Lemma calls_leave_input_unchanged_witness :
  (∃ r h',
      Store.extractAllPreloadPaths (Store.VRef 1) planStore
        = Store.Returns (Store.VRef r) h'
      ∧ planStore ⊆ h' ∧ reprPlan h' (Store.VRef 1) storedPlan
      ∧ planStore !! r = None
      ∧ h' !! r
        = Some (Store.OArray
                  (Store.VString <$> extractAllPreloadPaths storedPlan)))
  ∧ match convertAllFilesToPaths diskResolver storedPlan with
    | Ok out =>
        ∃ r h', Store.convertAllFilesToPaths diskResolver (Store.VRef 1)
                  planStore = Store.Returns (Store.VRef r) h'
                ∧ planStore ⊆ h' ∧ reprPlan h' (Store.VRef 1) storedPlan
                ∧ planStore !! r = None ∧ reprPlan h' (Store.VRef r) out
    | Throw msg =>
        ∃ h', Store.convertAllFilesToPaths diskResolver (Store.VRef 1)
                planStore = Store.Throws msg h'
              ∧ planStore ⊆ h' ∧ reprPlan h' (Store.VRef 1) storedPlan
    end.
Proof.
  apply (calls_leave_input_unchanged diskResolver planStore (Store.VRef 1)
           storedPlan).
  exact planStore_holds_storedPlan.
Defined.

(** * Further properties of the plan functions *)

(** ** The guards, one against the other *)

Lemma routable_not_install (e : Entry) :
  isRoutableStrategy e = true →
  String.eqb (strategy e) "cache-on-install" = false.
Proof.
  unfold isRoutableStrategy.
  destruct (String.eqb_spec (strategy e) "cache-on-install") as [->|]; done.
Qed.

Lemma backup_guard_routable (e : Entry) :
  isStaticOfflineBackup e = true → isRoutableStrategy e = true.
Proof.
  unfold isStaticOfflineBackup, isRoutableStrategy.
  destruct (String.eqb_spec (strategy e) "staticOfflineBackup") as [->|];
    done.
Qed.

(** X1: an entry whose backup is preloaded is routable, and an entry that
    either install guard accepts is not: the entries that give paths to the
    preload set and the entries that the worker routes as they stand are
    disjoint, the static-offline-backup entries being the only ones that
    are preloaded (their backup) and routed. *)
Theorem guards_split_preload_and_routing (e : Entry) :
  (isStaticOfflineBackup e = true → isRoutableStrategy e = true)
  ∧ (isCachePathOnInstall e = true → isRoutableStrategy e = false)
  ∧ (isCacheFileOnInstall e = true → isRoutableStrategy e = false)
  ∧ (isRoutableStrategy e = true → entryPreloads e ≠ [] →
     isStaticOfflineBackup e = true).
Proof.
  split; [apply backup_guard_routable|]. split; [|split].
  - unfold isCachePathOnInstall. intros [Hs _]%andb_prop.
    apply String.eqb_eq in Hs. by apply cache_on_install_not_routable.
  - unfold isCacheFileOnInstall. intros [Hs _]%andb_prop.
    apply String.eqb_eq in Hs. by apply cache_on_install_not_routable.
  - intros Hr%routable_not_install. unfold entryPreloads, isCachePathOnInstall.
    rewrite Hr. simpl. by destruct (isStaticOfflineBackup e).
Qed.

Lemma guards_split_preload_and_routing_witness :
  isRoutableStrategy
    {| strategy := "staticOfflineBackup"; files := None;
       paths := Some (PathString "/"); backup := Some "/m.html" |} = true.
Proof.
  apply (proj1 (guards_split_preload_and_routing
                  {| strategy := "staticOfflineBackup"; files := None;
                     paths := Some (PathString "/");
                     backup := Some "/m.html" |})).
  reflexivity.
Defined.

(** ** Conversion to cache-first strategies *)

Lemma convert_as_fmap (plan : Plan) :
  convertPreloadPathsToCacheFirst plan = toCacheFirst <$> plan.
Proof. reflexivity. Qed.

Lemma toCacheFirst_routable (e : Entry) :
  isRoutableStrategy (toCacheFirst e) = true.
Proof.
  unfold toCacheFirst. destruct (isRoutableStrategy e) eqn:Hr; [done|].
  apply cacheFirstOf_routable.
Qed.

Lemma toCacheFirst_fixed (e : Entry) :
  toCacheFirst e = e ↔ isRoutableStrategy e = true.
Proof.
  split.
  - intros He. rewrite <- He. apply toCacheFirst_routable.
  - intros Hr. unfold toCacheFirst. by rewrite Hr.
Qed.

(** X2: converting a converted plan changes nothing. *)
Theorem convertToCacheFirst_idempotent (plan : Plan) :
  convertPreloadPathsToCacheFirst (convertPreloadPathsToCacheFirst plan)
  = convertPreloadPathsToCacheFirst plan.
Proof.
  rewrite (convert_as_fmap plan), (convert_as_fmap (toCacheFirst <$> plan)).
  rewrite <- list_fmap_compose.
  apply list_fmap_ext. intros _ e _. simpl.
  apply toCacheFirst_fixed, toCacheFirst_routable.
Qed.

(** X3: the plans that the conversion returns as they are, are the plans
    all of whose entries are routable. *)
Theorem convertToCacheFirst_fixed_points (plan : Plan) :
  convertPreloadPathsToCacheFirst plan = plan
  ↔ Forall (λ e, isRoutableStrategy e = true) plan.
Proof.
  rewrite convert_as_fmap. induction plan as [|e plan IH].
  - split; [constructor|done].
  - rewrite fmap_cons, Forall_cons, <- IH, <- toCacheFirst_fixed. split.
    + by intros [= He Hplan].
    + by intros [-> ->].
Qed.

(** X4: the conversion changes no entry's paths: the converted plan has,
    index by index, the paths of the plan it was given. *)
Theorem convertToCacheFirst_keeps_paths (plan : Plan) :
  paths <$> convertPreloadPathsToCacheFirst plan = paths <$> plan.
Proof.
  rewrite convert_as_fmap, <- list_fmap_compose.
  apply list_fmap_ext. intros _ e _. simpl.
  unfold toCacheFirst. by destruct (isRoutableStrategy e).
Qed.

Lemma filter_install_converted (plan : Plan) :
  filter isCachePathOnInstall (toCacheFirst <$> plan) = [].
Proof.
  induction plan as [|e plan IH]; [done|].
  rewrite fmap_cons, filter_bool_cons, IH.
  unfold isCachePathOnInstall.
  by rewrite (routable_not_install _ (toCacheFirst_routable e)).
Qed.

Lemma filter_backup_converted (plan : Plan) :
  filter isStaticOfflineBackup (toCacheFirst <$> plan)
  = filter isStaticOfflineBackup plan.
Proof.
  induction plan as [|e plan IH]; [done|].
  rewrite fmap_cons, !filter_bool_cons, IH.
  unfold toCacheFirst at 1 2. destruct (isRoutableStrategy e) eqn:Hr; [done|].
  destruct (isStaticOfflineBackup e) eqn:Hb; [|done].
  apply backup_guard_routable in Hb. congruence.
Qed.

(** X5: extraction must see the plan before the conversion.  Once the
    install entries are cache-first strategies, extraction finds the
    backups only: the paths to cache on install are no longer collected. *)
Theorem extract_after_conversion_keeps_backups_only (plan : Plan) :
  extractAllPreloadPaths (convertPreloadPathsToCacheFirst plan)
  = Array_sort (omap backup (filter isStaticOfflineBackup plan)).
Proof.
  unfold extractAllPreloadPaths. rewrite convert_as_fmap.
  by rewrite filter_install_converted, filter_backup_converted.
Qed.

(** ** Extraction, entry by entry *)

Lemma filter_bool_app {A} (p : A → bool) (l1 l2 : list A) :
  filter p (l1 ++ l2)%list = (filter p l1 ++ filter p l2)%list.
Proof.
  induction l1 as [|x l1 IH]; [done|].
  rewrite <- app_comm_cons, !filter_bool_cons, IH. by destruct (p x).
Qed.

(** X6: an entry that neither preload guard accepts (a network-first
    strategy, a files entry that was not normalised, a static offline
    backup without a backup) can be taken out of the plan, or put in,
    without any change to the extracted paths. *)
Theorem extract_ignores_unguarded_entry (pre post : Plan) (e : Entry) :
  isCachePathOnInstall e = false →
  isStaticOfflineBackup e = false →
  extractAllPreloadPaths (pre ++ e :: post)
  = extractAllPreloadPaths (pre ++ post).
Proof.
  intros Hc Hb. unfold extractAllPreloadPaths.
  by rewrite !filter_bool_app, !filter_bool_cons, Hc, Hb.
Qed.

Lemma extract_ignores_unguarded_entry_witness :
  extractAllPreloadPaths ([splashEntry] ++ imagesEntry :: [networkFirstEntry])
  = extractAllPreloadPaths ([splashEntry] ++ [networkFirstEntry]).
Proof.
  apply (extract_ignores_unguarded_entry [splashEntry] [networkFirstEntry]
           imagesEntry); reflexivity.
Defined.

Lemma entryPreloads_membership (e : Entry) (x : string) :
  x ∈ entryPreloads e
  ↔ (strategy e = "cache-on-install"
     ∧ (paths e = Some (PathString x)
        ∨ ∃ l, paths e = Some (PathArray l) ∧ x ∈ l))
    ∨ (strategy e = "staticOfflineBackup"
       ∧ truthyPathsProp (paths e) = true
       ∧ backup e = Some x ∧ x ≠ "").
Proof.
  unfold entryPreloads, isCachePathOnInstall, isStaticOfflineBackup.
  destruct (String.eqb_spec (strategy e) "cache-on-install") as [Hs|Hs].
  - rewrite Hs. simpl. split.
    + destruct (paths e) as [[s|l]|]; simpl.
      * intros ->%list_elem_of_singleton. left. split; [done|]. by left.
      * intros Hx. left. split; [done|]. right. by exists l.
      * by intros ?%elem_of_nil.
    + intros [[_ [->| (l & -> & Hx)]] | [[=] _]]; simpl; [|done].
      by apply list_elem_of_singleton.
  - simpl. destruct (String.eqb_spec (strategy e) "staticOfflineBackup")
      as [Hb|Hb]; simpl.
    + destruct (truthyPathsProp (paths e)); simpl.
      * destruct (backup e) as [b|]; simpl.
        -- destruct (String.eqb_spec b "") as [->|Hne]; simpl.
           ++ split; [by intros ?%elem_of_nil|].
              intros [[? _] | (_ & _ & [= <-] & ?)]; done.
           ++ split.
              ** intros ->%list_elem_of_singleton. right. by repeat split.
              ** intros [[? _] | (_ & _ & [= <-] & ?)]; [done|].
                 by apply list_elem_of_singleton.
        -- split; [by intros ?%elem_of_nil|].
           intros [[? _] | (_ & _ & [=] & ?)]; done.
      * split; [by intros ?%elem_of_nil|].
        intros [[? _] | (_ & [=] & _)]; done.
    + split; [by intros ?%elem_of_nil|].
      intros [[? _] | [? _]]; done.
Qed.

(** X7: what the output holds, and nothing else: a string is among the
    extracted paths exactly when some entry of the plan is a
    cache-on-install entry that has it as its path or among its paths, or
    is a static-offline-backup entry with truthy paths that has it as its
    non-empty backup. *)
Theorem extract_membership (plan : Plan) (x : string) :
  x ∈ extractAllPreloadPaths plan
  ↔ ∃ e, e ∈ plan
         ∧ ((strategy e = "cache-on-install"
             ∧ (paths e = Some (PathString x)
                ∨ ∃ l, paths e = Some (PathArray l) ∧ x ∈ l))
            ∨ (strategy e = "staticOfflineBackup"
               ∧ truthyPathsProp (paths e) = true
               ∧ backup e = Some x ∧ x ≠ "")).
Proof.
  rewrite extract_perm, list_elem_of_In, in_concat. split.
  - intros (l & (e & <- & He)%in_map_iff & Hx).
    exists e. split; [by apply list_elem_of_In|].
    by apply entryPreloads_membership, list_elem_of_In.
  - intros (e & He & Hx). exists (entryPreloads e). split.
    + apply in_map. by apply list_elem_of_In.
    + by apply list_elem_of_In, entryPreloads_membership.
Qed.

(** X8: the paths of two plans put end to end are the paths of the one and
    the paths of the other, sorted together. *)
Theorem extract_app (plan1 plan2 : Plan) :
  extractAllPreloadPaths (plan1 ++ plan2)
  = Array_sort (extractAllPreloadPaths plan1 ++ extractAllPreloadPaths plan2).
Proof.
  apply (Sorted_unique string_le); try apply Array_sort_Sorted.
  rewrite Array_sort_Permutation, !extract_perm.
  by rewrite map_app, concat_app.
Qed.

(** ** Normalisation: errors, and what follows it *)

Lemma mapR_app {A B} (f : A → Result B) (l1 l2 : list A) :
  mapR f (l1 ++ l2)%list
  = ys1 ← mapR f l1; ys2 ← mapR f l2; Ok (ys1 ++ ys2)%list.
Proof.
  induction l1 as [|x l1 IH]; simpl.
  - by destruct (mapR f l2).
  - destruct (f x) as [y|m]; simpl; [|done]. rewrite IH.
    destruct (mapR f l1) as [ys1|m]; simpl; [|done].
    by destruct (mapR f l2).
Qed.

(** X9: the exception of normalisation is the resolver's own, for the
    first files entry, in plan order, on which the resolver throws; the
    entries after it are not looked at. *)
Theorem convertAll_first_error
    (r : FilesSpec → Result (list string))
    (pre pre' post : Plan) (e : Entry) (f : FilesSpec) (m : string) :
  convertAllFilesToPaths r pre = Ok pre' →
  strategy e = "cache-on-install" → files e = Some f →
  r f = Throw m →
  convertAllFilesToPaths r (pre ++ e :: post) = Throw m.
Proof.
  intros Hpre Hs Hf Hm. unfold convertAllFilesToPaths in *.
  rewrite mapR_app, Hpre. simpl.
  by rewrite (convertPreloadFiles_files r e f Hs Hf), Hm.
Qed.

Lemma convertAll_first_error_witness :
  convertAllFilesToPaths diskResolver
    ([imagesEntry] ++ unreadableEntry :: [bothFieldsEntry])
  = Throw "ENOENT: no such file or directory, scandir nowhere".
Proof.
  apply (convertAll_first_error diskResolver [imagesEntry]
           [pathEntry ["/img/icon.png"; "/img/logo.png"]] [bothFieldsEntry]
           unreadableEntry {| dir := "nowhere"; glob := "*"; prefix := "" |});
    reflexivity.
Defined.

(** X10: normalisation must come before the conversion to cache-first
    strategies.  A converted plan has no files entry left, so normalising
    it returns it as it is, whatever the resolver would answer: the
    files-specs of the plan are never resolved. *)
Theorem convertAll_after_conversion_is_identity
    (r : FilesSpec → Result (list string)) (plan : Plan) :
  convertAllFilesToPaths r (convertPreloadPathsToCacheFirst plan)
  = Ok (convertPreloadPathsToCacheFirst plan).
Proof.
  apply convertAll_fixpoint. rewrite convert_as_fmap.
  apply Forall_fmap, Forall_forall. intros e _. simpl.
  unfold isCacheFileOnInstall.
  by rewrite (routable_not_install _ (toCacheFirst_routable e)).
Qed.

(** X11: normalisation, then the conversion: when normalisation returns,
    every entry of the converted plan is routable and each files entry of
    the raw plan has become, at its index, a cache-first strategy over the
    paths the resolver found. *)
Theorem files_entries_become_cacheFirst
    (r : FilesSpec → Result (list string)) (plan out : Plan) :
  convertAllFilesToPaths r plan = Ok out →
  Forall (λ o, isRoutableStrategy o = true)
    (convertPreloadPathsToCacheFirst out)
  ∧ ∀ i e f, plan !! i = Some e →
      strategy e = "cache-on-install" → files e = Some f →
      ∃ found, r f = Ok found
        ∧ convertPreloadPathsToCacheFirst out !! i
          = Some {| strategy := "cacheFirst"; files := None;
                    paths := Some (PathArray found); backup := None |}.
Proof.
  intros Hout. rewrite convert_as_fmap. split.
  - apply Forall_fmap, Forall_forall. intros o _. apply toCacheFirst_routable.
  - intros i e f Hi Hs Hf.
    destruct (convertAll_lookup r _ _ _ _ Hout Hi) as (o & Ho & Heo).
    rewrite (convertPreloadFiles_files r e f Hs Hf) in Heo.
    destruct (r f) as [found|m]; simpl in Heo; [|done].
    exists found. split; [done|].
    rewrite list_lookup_fmap, Ho. by injection Heo as <-.
Qed.

Lemma files_entries_become_cacheFirst_witness :
  Forall (λ o, isRoutableStrategy o = true)
    (convertPreloadPathsToCacheFirst
       [networkFirstEntry; pathEntry ["/img/icon.png"; "/img/logo.png"]])
  ∧ ∀ i e f, [networkFirstEntry; imagesEntry] !! i = Some e →
      strategy e = "cache-on-install" → files e = Some f →
      ∃ found, diskResolver f = Ok found
        ∧ convertPreloadPathsToCacheFirst
            [networkFirstEntry; pathEntry ["/img/icon.png"; "/img/logo.png"]]
          !! i
          = Some {| strategy := "cacheFirst"; files := None;
                    paths := Some (PathArray found); backup := None |}.
Proof.
  apply (files_entries_become_cacheFirst diskResolver
           [networkFirstEntry; imagesEntry]).
  reflexivity.
Defined.

Lemma preloads_of_converted (r : FilesSpec → Result (list string))
    (e o : Entry) :
  convertPreloadFiles r e = Ok o →
  entryPreloads o = preloadsAfterNormalisation r e.
Proof.
  unfold convertPreloadFiles, preloadsAfterNormalisation.
  destruct (isCacheFileOnInstall e); [|by intros [= <-]].
  destruct (files e) as [f|]; [|by intros [= <-]].
  unfold convertPreloadFilesToPaths.
  destruct (r f) as [found|m]; simpl; [|done]. by intros [= <-].
Qed.

(** X12: extraction after normalisation: when normalisation returns, the
    extracted paths are, with their multiplicities, the paths the resolver
    found for each files entry (whatever paths such an entry also listed),
    together with what every other entry adds as it stands. *)
Theorem extract_after_normalisation
    (r : FilesSpec → Result (list string)) (plan out : Plan) :
  convertAllFilesToPaths r plan = Ok out →
  extractAllPreloadPaths out
  ≡ₚ concat (map (preloadsAfterNormalisation r) plan).
Proof.
  intros Hout%mapR_Ok. rewrite extract_perm.
  induction Hout as [|e o plan out Heo _ IH]; [done|].
  cbn [map concat]. by rewrite IH, (preloads_of_converted r e o Heo).
Qed.

Lemma extract_after_normalisation_witness :
  extractAllPreloadPaths
    [splashEntry; pathEntry ["/img/icon.png"; "/img/logo.png"]]
  ≡ₚ concat (map (preloadsAfterNormalisation diskResolver)
               [splashEntry; bothFieldsEntry]).
Proof.
  apply (extract_after_normalisation diskResolver
           [splashEntry; bothFieldsEntry]).
  reflexivity.
Defined.

(** ** The store: what the converted arrays share with their input *)

(** [map], with a callback that returns on every entry of the plan: the
    store grows, the new array holds the converted plan, and what is known
    of each element of the result, in the store the callback left, is
    known in the final store. *)
Lemma run_mapM_entries (cb : Store.value → Store.JS Store.value)
    (g : Entry → Entry) (P : Entry → Prop)
    (Q : Store.heap → Store.value → Entry → Store.value → Prop)
    (h0 : Store.heap) :
  (∀ h v e, h0 ⊆ h → reprEntry h v e → P e →
     ∃ w h', cb v h = Store.Returns w h' ∧ h ⊆ h'
             ∧ reprEntry h' w (g e) ∧ Q h' v e w) →
  (∀ h h' v e w, h ⊆ h' → Q h v e w → Q h' v e w) →
  ∀ (plan : Plan) vs h, h0 ⊆ h → Forall2 (reprEntry h) vs plan →
    Forall P plan →
    ∃ ws h', Store.mapM cb vs h = Store.Returns ws h' ∧ h ⊆ h'
             ∧ Forall2 (reprEntry h') ws (g <$> plan)
             ∧ ∀ i v e, vs !! i = Some v → plan !! i = Some e →
                 ∃ w, ws !! i = Some w ∧ Q h' v e w.
Proof.
  intros Hcb Hmono. induction plan as [|e plan IH]; intros vs h H0 Hall HP.
  - apply Forall2_nil_inv_r in Hall as ->. exists [], h.
    split; [done|]. split; [done|]. split; [constructor|]. by intros i v e.
  - apply Forall2_cons_inv_r in Hall as (v & vs' & Hve & Hall & ->).
    apply Forall_cons in HP as [Pe HP].
    destruct (Hcb h v e H0 Hve Pe) as (w & h1 & Hrun & H01 & Hw & HQ).
    assert (h0 ⊆ h1) as H0' by (by etrans).
    destruct (IH vs' h1 H0' (reprEntries_mono _ _ _ _ H01 Hall) HP)
      as (ws & h2 & Hrun' & H12 & Hws & HQs).
    exists (w :: ws), h2. cbn [Store.mapM].
    rewrite run_bind, Hrun, run_bind, Hrun'.
    split; [done|]. split; [by etrans|]. split.
    + rewrite fmap_cons. constructor; [by eapply reprEntry_mono|done].
    + intros [|i] v' e' Hv He; simpl in *.
      * injection Hv as <-. injection He as <-. exists w.
        split; [done|]. by eapply Hmono.
      * by apply HQs.
Qed.

Lemma run_isRoutableStrategy (h : Store.heap) v (e : Entry) :
  reprEntry h v e →
  Store.isRoutableStrategy v h = Store.Returns (isRoutableStrategy e) h.
Proof.
  intros (a & props & -> & Ha & Hs & _).
  unfold Store.isRoutableStrategy.
  rewrite run_bind, (run_getProp h a props) by done. by rewrite Hs.
Qed.

Lemma cacheFirstElement_mono (h0 h h' : Store.heap) v e w :
  h ⊆ h' → cacheFirstElement h0 h v e w → cacheFirstElement h0 h' v e w.
Proof.
  intros Hsub. unfold cacheFirstElement.
  destruct (isRoutableStrategy e); [done|].
  intros (l & props & a & props0 & -> & Hl & Hl' & -> & Ha & Hs & Hp).
  exists l, props, a, props0.
  repeat split; try done; by eapply lookup_weaken.
Qed.

Lemma run_toCacheFirst (h0 h : Store.heap) v (e : Entry) :
  h0 ⊆ h → reprEntry h v e →
  (isRoutableStrategy e = false → is_Some (paths e)) →
  ∃ w h', Store.toCacheFirst v h = Store.Returns w h' ∧ h ⊆ h'
          ∧ reprEntry h' w (toCacheFirst e) ∧ cacheFirstElement h0 h' v e w.
Proof.
  intros H0 Hve Htyped.
  pose proof (run_isRoutableStrategy h v e Hve) as Hguard.
  unfold Store.toCacheFirst, toCacheFirst, cacheFirstElement.
  rewrite run_bind, Hguard.
  destruct (isRoutableStrategy e) eqn:Hr; [by exists v, h|].
  destruct (Htyped eq_refl) as [p Hpe].
  destruct Hve as (a & props & -> & Ha & Hs & Hf & Hp & Hb).
  rewrite Hpe in Hp. inversion Hp as [pv p' Hpv Hpv' Hp'|]; subst p'.
  rewrite run_bind, (run_getProp h a props) by done.
  rewrite <- Hpv'. simpl.
  set (l := fresh (dom h)).
  set (props' := {[ "strategy" := Store.VString "cacheFirst";
                    "paths" := pv ]} : gmap string Store.value).
  assert (h ⊆ <[l:=Store.ORecord props']> h) as Hsub by apply alloc_extends.
  exists (Store.VRef l), (<[l:=Store.ORecord props']> h).
  split; [reflexivity|]. split; [done|]. split.
  - exists l, props'. split; [done|]. split; [apply lookup_insert_eq|].
    split; [done|]. split; [constructor|]. split; [|constructor].
    simpl. rewrite Hpe. constructor. by eapply reprPaths_mono.
  - exists l, props', a, props. split; [done|]. split.
    { eapply lookup_weaken_None; [apply fresh_unused|done]. }
    split; [apply lookup_insert_eq|]. split; [done|].
    split; [by eapply lookup_weaken|]. by split.
Qed.

(** X13: the conversion to cache-first strategies over the store, on a
    plan whose entries that are not routable have paths (the entries of
    [InputCacheStrategyAsPaths]).  It returns a new array that holds the
    converted plan and leaves every object of the store as it was.  The new
    array shares with the input: a routable entry is the same object in
    both, and the cache-first strategy made from an install entry is a new
    object whose [paths] is the very value (for an array, the same array)
    that the install entry has. *)
Theorem store_convertToCacheFirst
    (h : Store.heap) (a : Store.loc) elems (plan : Plan) :
  h !! a = Some (Store.OArray elems) →
  Forall2 (reprEntry h) elems plan →
  Forall (λ e, isRoutableStrategy e = false → is_Some (paths e)) plan →
  ∃ r h' ws,
    Store.convertPreloadPathsToCacheFirst (Store.VRef a) h
      = Store.Returns (Store.VRef r) h'
    ∧ h ⊆ h' ∧ h !! r = None
    ∧ h' !! r = Some (Store.OArray ws)
    ∧ Forall2 (reprEntry h') ws (convertPreloadPathsToCacheFirst plan)
    ∧ ∀ i v e, elems !! i = Some v → plan !! i = Some e →
        ∃ w, ws !! i = Some w ∧ cacheFirstElement h h' v e w.
Proof.
  intros Ha Hplan Htyped.
  destruct (run_mapM_entries Store.toCacheFirst toCacheFirst
              (λ e, isRoutableStrategy e = false → is_Some (paths e))
              (cacheFirstElement h) h
              (λ h1 v e, run_toCacheFirst h h1 v e)
              (cacheFirstElement_mono h)
              plan elems h (reflexivity h) Hplan Htyped)
    as (ws & h1 & Hrun & H01 & Hws & Hshare).
  unfold Store.convertPreloadPathsToCacheFirst, Store.arrayMap.
  rewrite run_bind, (run_readArray h a elems Ha), run_bind, Hrun.
  rewrite run_bind, run_alloc. cbn.
  set (r := fresh (dom h1)).
  assert (h1 ⊆ <[r:=Store.OArray ws]> h1) as H1r by apply alloc_extends.
  exists r, (<[r:=Store.OArray ws]> h1), ws. split; [done|].
  split; [by etrans|]. split.
  { eapply lookup_weaken_None; [apply fresh_unused|done]. }
  split; [apply lookup_insert_eq|]. split.
  - rewrite convert_as_fmap. by eapply reprEntries_mono.
  - intros i v e Hv He. destruct (Hshare i v e Hv He) as (w & Hw & HQ).
    exists w. split; [done|]. by eapply cacheFirstElement_mono.
Qed.

Lemma run_convertPreloadFiles_element
    (r : FilesSpec → Result (list string)) (h0 h : Store.heap) v (e : Entry) :
  h0 ⊆ h → reprEntry h v e →
  (∃ o, convertPreloadFiles r e = Ok o) →
  ∃ w h', Store.convertPreloadFiles r v h = Store.Returns w h' ∧ h ⊆ h'
          ∧ reprEntry h' w (normalisedEntry r e)
          ∧ normalisedElement h0 v e w.
Proof.
  intros H0 Hve [o Ho].
  pose proof (run_isCacheFileOnInstall h v e Hve) as Hguard.
  unfold normalisedEntry, normalisedElement. rewrite Ho.
  unfold Store.convertPreloadFiles, convertPreloadFiles in *.
  rewrite run_bind, Hguard.
  destruct (isCacheFileOnInstall e) eqn:Hfiles.
  - destruct Hve as (a & props & -> & Ha & Hs & Hf & Hp & Hb).
    unfold isCacheFileOnInstall in Hfiles.
    apply andb_prop in Hfiles as [_ Hfiles].
    inversion Hf as [fv f Hfv Hfv' Hf'|Hfv' Hf'];
      [|by rewrite <- Hf' in Hfiles].
    rewrite <- Hf' in Ho.
    unfold Store.convertPreloadFilesToPaths, convertPreloadFilesToPaths in *.
    rewrite run_bind, (run_getProp h a props) by done.
    rewrite <- Hfv'. simpl.
    rewrite run_bind, (run_callFilesSpecToPaths r h fv f Hfv).
    destruct (r f) as [found|msg]; simpl in Ho; [|done].
    injection Ho as <-.
    set (r1 := fresh (dom h)). set (h1 := <[r1:=_]> h).
    set (r2 := fresh (dom h1)).
    assert (h ⊆ h1) as H01 by apply alloc_extends.
    assert (h1 ⊆ <[r2:=Store.ORecord
                         {[ "strategy" := Store.VString "cache-on-install";
                            "paths" := Store.VRef r1 ]}]> h1)
      as H12 by apply alloc_extends.
    eexists (Store.VRef r2), (<[r2:=_]> h1). split; [reflexivity|].
    split; [by etrans|]. split.
    + eexists r2, _. split; [done|]. split; [apply lookup_insert_eq|].
      split; [done|]. split; [constructor|]. split; [|constructor].
      constructor. exists r1. split; [done|].
      eapply lookup_weaken; [apply lookup_insert_eq|exact H12].
    + exists r2. split; [done|].
      eapply lookup_weaken_None; [apply (fresh_unused h1)|by etrans].
  - assert (o = e) as -> by (destruct (files e); congruence).
    by exists v, h.
Qed.

(** X14: normalisation over the store, when it returns: the new array
    shares the entries it did not convert with its input (the same object
    is in both arrays), and only the files entries have given new
    objects. *)
Theorem store_normalisation_shares_entries
    (r : FilesSpec → Result (list string))
    (h : Store.heap) (a : Store.loc) elems (plan out : Plan) :
  h !! a = Some (Store.OArray elems) →
  Forall2 (reprEntry h) elems plan →
  convertAllFilesToPaths r plan = Ok out →
  ∃ l h' ws,
    Store.convertAllFilesToPaths r (Store.VRef a) h
      = Store.Returns (Store.VRef l) h'
    ∧ h' !! l = Some (Store.OArray ws)
    ∧ Forall2 (reprEntry h') ws out
    ∧ ∀ i v e, elems !! i = Some v → plan !! i = Some e →
        ∃ w, ws !! i = Some w ∧ normalisedElement h v e w.
Proof.
  intros Ha Hplan Hout%mapR_Ok.
  assert (out = normalisedEntry r <$> plan
          ∧ Forall (λ e, ∃ o, convertPreloadFiles r e = Ok o) plan)
    as [-> HP].
  { clear Ha Hplan.
    induction Hout as [|e o plan out Heo _ [-> IH]]; [by split|].
    split; [|constructor; eauto].
    rewrite fmap_cons. f_equal. unfold normalisedEntry. by rewrite Heo. }
  destruct (run_mapM_entries (Store.convertPreloadFiles r)
              (normalisedEntry r)
              (λ e, ∃ o, convertPreloadFiles r e = Ok o)
              (λ _ v e w, normalisedElement h v e w) h
              (λ h1 v e, run_convertPreloadFiles_element r h h1 v e)
              (λ _ _ _ _ _ _ HQ, HQ)
              plan elems h (reflexivity h) Hplan HP)
    as (ws & h1 & Hrun & H01 & Hws & Hshare).
  unfold Store.convertAllFilesToPaths, Store.arrayMap.
  rewrite run_bind, (run_readArray h a elems Ha), run_bind, Hrun.
  rewrite run_bind, run_alloc. cbn.
  set (l := fresh (dom h1)).
  exists l, (<[l:=Store.OArray ws]> h1), ws. split; [done|].
  split; [apply lookup_insert_eq|]. split; [|done].
  eapply reprEntries_mono; [apply alloc_extends|done].
Qed.

(** The two sharing theorems at the store of the examples. *)

Lemma planStore_entries :
  Forall2 (reprEntry planStore)
    [Store.VRef 2; Store.VRef 4; Store.VRef 6] storedPlan.
Proof.
  unfold storedPlan, imagesEntry.
  constructor; [|constructor; [|constructor; [|constructor]]].
  - eexists 2%positive, _. split; [reflexivity|].
    split; [vm_compute; reflexivity|]. split; [reflexivity|].
    split; [constructor|]. split; [|constructor].
    constructor. exists 3%positive. split; reflexivity.
  - eexists 4%positive, _. split; [reflexivity|].
    split; [vm_compute; reflexivity|]. split; [reflexivity|].
    split; [constructor|]. split; constructor; reflexivity.
  - eexists 6%positive, _. split; [reflexivity|].
    split; [vm_compute; reflexivity|]. split; [reflexivity|].
    split; [|split; constructor].
    constructor. eexists 7%positive, _. repeat split; reflexivity.
Qed.

Lemma pathsStore_entries :
  Forall2 (reprEntry pathsStore) [Store.VRef 2; Store.VRef 4] pathsPlan.
Proof.
  unfold pathsPlan.
  constructor; [|constructor; [|constructor]].
  - eexists 2%positive, _. split; [reflexivity|].
    split; [vm_compute; reflexivity|]. split; [reflexivity|].
    split; [constructor|]. split; [|constructor].
    constructor. exists 3%positive. split; reflexivity.
  - eexists 4%positive, _. split; [reflexivity|].
    split; [vm_compute; reflexivity|]. split; [reflexivity|].
    split; [constructor|]. split; constructor; reflexivity.
Qed.

Lemma store_convertToCacheFirst_witness :
  ∃ r h' ws,
    Store.convertPreloadPathsToCacheFirst (Store.VRef 1) pathsStore
      = Store.Returns (Store.VRef r) h'
    ∧ pathsStore ⊆ h' ∧ pathsStore !! r = None
    ∧ h' !! r = Some (Store.OArray ws)
    ∧ Forall2 (reprEntry h') ws (convertPreloadPathsToCacheFirst pathsPlan)
    ∧ ∀ i v e, [Store.VRef 2; Store.VRef 4] !! i = Some v →
        pathsPlan !! i = Some e →
        ∃ w, ws !! i = Some w ∧ cacheFirstElement pathsStore h' v e w.
Proof.
  apply (store_convertToCacheFirst pathsStore 1
           [Store.VRef 2; Store.VRef 4] pathsPlan).
  - reflexivity.
  - exact pathsStore_entries.
  - repeat constructor; by eexists.
Defined.

Lemma store_normalisation_shares_entries_witness :
  ∃ l h' ws,
    Store.convertAllFilesToPaths diskResolver (Store.VRef 1) planStore
      = Store.Returns (Store.VRef l) h'
    ∧ h' !! l = Some (Store.OArray ws)
    ∧ Forall2 (reprEntry h') ws
        [ {| strategy := "cache-on-install"; files := None;
             paths := Some (PathArray ["/z.png"; "/a.png"]);
             backup := None |};
          {| strategy := "staticOfflineBackup"; files := None;
             paths := Some (PathString "/"); backup := Some "/m.html" |};
          pathEntry ["/img/icon.png"; "/img/logo.png"] ]
    ∧ ∀ i v e, [Store.VRef 2; Store.VRef 4; Store.VRef 6] !! i = Some v →
        storedPlan !! i = Some e →
        ∃ w, ws !! i = Some w ∧ normalisedElement planStore v e w.
Proof.
  apply (store_normalisation_shares_entries diskResolver planStore 1
           [Store.VRef 2; Store.VRef 4; Store.VRef 6] storedPlan).
  - reflexivity.
  - exact planStore_entries.
  - reflexivity.
Defined.

